(** * sv2-linux-bridge: the authentication bridge server, embedded in Rocq

    A shallow embedding of [src/auth_bridge/server.py].  Python strings are
    [string], dictionaries with string keys are [gmap string _], [Path]
    objects are lists of components, and the operating system (files,
    environment, external processes, clock) is an explicit state threaded
    through a small state-and-exception monad.  Every definition carries the
    name of the Python function, method or expression it embeds.

    Conventions of the model:
    - the file system is a finite map from paths to nodes; a write fails
      (raises [OSError]) when the parent is not a directory or the target is
      one; permissions are not modelled, and symbolic links only through the
      host's [resolve];
    - an external program is a function of its invocation and of the file
      system, returning its outcome and the file system it leaves behind;
    - every file-system probe, write and external call is recorded, in
      order, in the [trace] of the state, so that "is invoked" and "is never
      invoked" are statements about the trace;
    - log lines are left out, and the HTML and JSON bodies of the responses
      are named rather than spelled out. *)

From Stdlib Require Import Ascii String ZArith QArith DecimalString.
From stdpp Require Import gmap strings list fin_maps.

#[local] Open Scope string_scope.
#[local] Open Scope list_scope.

(** ** Python text *)

Definition dquote : string := String "034"%char EmptyString.
Definition nl : string := String "010"%char EmptyString.
Definition backslash : ascii := "092"%char.
Definition slash : ascii := "047"%char.

(** [prefix_of p s]: [s.startswith(p)]. *)
Fixpoint prefix_of (p s : string) : bool :=
  match p, s with
  | EmptyString, _ => true
  | String a p', String b s' => if Ascii.eqb a b then prefix_of p' s' else false
  | String _ _, EmptyString => false
  end.

(** [str_in needle hay]: the Python test [needle in hay] on [str]. *)
Fixpoint str_in (needle hay : string) : bool :=
  prefix_of needle hay ||
  match hay with
  | EmptyString => false
  | String _ hay' => str_in needle hay'
  end.

(** [str.lower()] on the ASCII letters; no other character lower-cases to an
    ASCII letter occurring in the markers searched for below. *)
Definition lower_ascii (c : ascii) : ascii :=
  let n := nat_of_ascii c in
  if (65 <=? n)%nat && (n <=? 90)%nat then ascii_of_nat (n + 32) else c.

Fixpoint lower (s : string) : string :=
  match s with
  | EmptyString => EmptyString
  | String c s' => String (lower_ascii c) (lower s')
  end.

(** [sep.join(parts)]. *)
Definition join (sep : string) (parts : list string) : string :=
  String.concat sep parts.

(** [s.split(sep)] for a one-character separator: the pieces between the
    separators, empty pieces included. *)
Fixpoint split_on (sep : ascii) (s : string) : list string :=
  match s with
  | EmptyString => [EmptyString]
  | String c s' =>
      if Ascii.eqb c sep then EmptyString :: split_on sep s'
      else match split_on sep s' with
           | [] => [String c EmptyString]
           | piece :: pieces => String c piece :: pieces
           end
  end.

(** [str(int(z))]. *)
Definition str_of_int (z : Z) : string := NilEmpty.string_of_int (Z.to_int z).

(** ** Python truthiness on optional strings *)

(** [bool(x)] for [x : Optional[str]]: [None] and the empty string are falsy. *)
Definition truthy (x : option string) : bool :=
  match x with
  | Some s => negb (String.eqb s EmptyString)
  | None => false
  end.

(** [a or b] on optional strings. *)
Definition py_or (a b : option string) : option string :=
  if truthy a then a else b.

(** [a or s] where [s] is a string: the result is a string. *)
Definition py_or_str (a : option string) (s : string) : string :=
  match a with
  | Some v => if String.eqb v EmptyString then s else v
  | None => s
  end.

(** [d.get(k, dflt)]. *)
Definition dict_get (d : gmap string string) (k dflt : string) : string :=
  default dflt (d !! k).

(** [k in d]. *)
Definition dict_has (d : gmap string string) (k : string) : bool :=
  bool_decide (is_Some (d !! k)).

(** ** Paths

    A [Path] is the list of components of an absolute, normalised POSIX
    path; [parts_of] is pathlib's parsing of a string into components
    (empty components and [.] are dropped). *)

Abbreviation Path := (list string).

Definition parts_of (s : string) : list string :=
  filter (λ c, c ≠ EmptyString ∧ c ≠ ".") (split_on slash s).

(** [p / s]: an absolute right operand replaces the left one. *)
Definition pjoin (p : Path) (s : string) : Path :=
  if prefix_of "/" s then parts_of s else p ++ parts_of s.

Infix "</>" := pjoin (at level 40, left associativity).

(** [str(p)]. *)
Definition str_of_path (p : Path) : string :=
  match p with
  | [] => "/"
  | _ => String.concat EmptyString (map (λ c, "/" +:+ c) p)
  end.

(** [p.parent]. *)
Definition parent (p : Path) : Path := removelast p.

(** [p.relative_to(base)]: the components of [p] below [base], or the
    [ValueError] ([None]) when [p] is not [base] or a descendant of it. *)
Fixpoint relative_to (p base : Path) {struct base}
    : option (list string) :=
  match base, p with
  | [], _ => Some p
  | b :: base', c :: p' => if String.eqb b c then relative_to p' base' else None
  | _ :: _, [] => None
  end.

(** ** The file system *)

(** What the bridge writes into files: plain text, or the diagnostic JSON
    payload [{access_token, auth_params, timestamp}] of [json.dump]. *)
Inductive content :=
| Text (s : string)
| JsonPayload (access_token : option string)
              (auth_params : gmap string string) (timestamp : Q).

Inductive node :=
| File (data : content)
| Dir.

Abbreviation FS := (gmap (list string) node).

Definition is_dir (fs : FS) (p : Path) : bool :=
  match fs !! p with
  | Some Dir => true
  | _ => false
  end.

Definition fs_exists (fs : FS) (p : Path) : bool :=
  bool_decide (is_Some (fs !! p)).

(** Opening [p] for writing succeeds when its parent is a directory and [p]
    itself is not one; otherwise the call raises [OSError]. *)
Definition writable (fs : FS) (p : Path) : bool :=
  is_dir fs (parent p) && negb (is_dir fs p) && bool_decide (p ≠ []).

(** [p.mkdir(parents=True, exist_ok=True)], walking the ancestors of [p] from
    the root down ([done_] is the part already known to be a directory):
    a component that exists as a file makes the call raise ([None]). *)
Fixpoint mkdir_from (fs : FS) (done_ : Path) (todo : list string) : option FS :=
  match todo with
  | [] => Some fs
  | c :: todo' =>
      let q := done_ ++ [c] in
      match fs !! q with
      | Some Dir => mkdir_from fs q todo'
      | Some (File _) => None
      | None => mkdir_from (<[q := Dir]> fs) q todo'
      end
  end.

Definition mkdir_parents (fs : FS) (p : Path) : option FS := mkdir_from fs [] p.

(** ** External processes *)

(** One [subprocess.run] call: the argument vector, the [WINEPREFIX] placed
    in the child's environment when [env=] is passed, and the [timeout=]. *)
Record invocation := Invocation {
  argv : list string;
  env_wineprefix : option string;
  timeout : option nat
}.

(** What the call yields: a [CompletedProcess], [subprocess.TimeoutExpired],
    or another exception (the program could not be started). *)
Inductive proc_outcome :=
| Completed (returncode : Z) (stdout stderr : string)
| TimedOut
| SpawnError.

(** ** The host: everything the bridge reads from its surroundings *)

Class Host := {
  (** [os.environ] *)
  environ : gmap string string;
  (** [Path.home()] *)
  home : Path;
  (** the working directory against which relative strings are read *)
  cwd : Path;
  (** [shutil.which(name) is not None] *)
  which : string → bool;
  (** [Path.resolve()]: symbolic links followed *)
  resolve : Path → Path;
  (** the behaviour of an external program on the file system *)
  subprocess : invocation → FS → proc_outcome * FS;
  (** [asyncio.get_event_loop().time()], by the number of earlier readings *)
  loop_time : nat → Q;
  (** the name [tempfile.NamedTemporaryFile(suffix=".reg")] picks *)
  mktemp : FS → Path
}.

(** ** The state and the monad *)

(** The effects a run leaves behind, in order. *)
Inductive event :=
| EvExists (p : Path) (found : bool)
| EvMkdir (p : Path)
| EvWrite (p : Path) (data : content)
| EvUnlink (p : Path)
| EvRglob (dir : Path) (name : string)
| EvRun (inv : invocation) (out : proc_outcome).

(** [self.user_info] *)
Record user_info_t := UserInfo {
  user_id : string;
  username : string;
  email : string
}.

(** The attributes [__init__] gives an [AuthBridgeServer]. *)
Record server := Server {
  port : Z;
  auth_token : option string;
  user_info : option user_info_t;
  last_auth_params : option (gmap string string);
  redirect_uri_used : option string
}.

(** [AuthBridgeServer(port)] *)
Definition __init__ (port : Z) : server :=
  Server port None None None None.

Record state := State {
  self : server;
  fs : FS;
  trace : list event;
  ticks : nat
}.

Inductive exn :=
| OSError
| TimeoutExpired
| AttributeError (attr : string).

Inductive result (A : Type) :=
| Ok (a : A)
| Raise (e : exn).
Arguments Ok {A} a.
Arguments Raise {A} e.

Definition M (A : Type) : Type := state → result A * state.

Definition ret {A} (a : A) : M A := λ s, (Ok a, s).

Definition raise {A} (e : exn) : M A := λ s, (Raise e, s).

Definition bind {A B} (m : M A) (k : A → M B) : M B :=
  λ s, match m s with
       | (Ok a, s') => k a s'
       | (Raise e, s') => (Raise e, s')
       end.

(** [try: body except Exception: handler] *)
Definition try_except {A} (body : M A) (handler : exn → M A) : M A :=
  λ s, match body s with
       | (Ok a, s') => (Ok a, s')
       | (Raise e, s') => handler e s'
       end.

Notation "'let*' x ':=' m 'in' k" := (bind m (λ x, k))
  (at level 10, x name, m at level 100, k at level 200).
Notation "m ';;' k" := (bind m (λ _, k))
  (at level 100, k at level 200, right associativity).

Definition emit (e : event) (s : state) : state :=
  State (self s) (fs s) (trace s ++ [e]) (ticks s).

Definition set_fs (f : FS) (s : state) : state :=
  State (self s) f (trace s) (ticks s).

Definition set_self (v : server) (s : state) : state :=
  State v (fs s) (trace s) (ticks s).

(** [p.exists()] *)
Definition path_exists (p : Path) : M bool :=
  λ s, let b := fs_exists (fs s) p in (Ok b, emit (EvExists p b) s).

(** [p.write_text(data)], and [open(p, "w")] followed by one write *)
Definition write_file (p : Path) (data : content) : M unit :=
  λ s, if writable (fs s) p
       then (Ok (), emit (EvWrite p data) (set_fs (<[p := File data]> (fs s)) s))
       else (Raise OSError, s).

(** [p.mkdir(parents=True, exist_ok=True)] *)
Definition mkdir (p : Path) : M unit :=
  λ s, match mkdir_parents (fs s) p with
       | Some f => (Ok (), emit (EvMkdir p) (set_fs f s))
       | None => (Raise OSError, s)
       end.

(** [os.unlink(p)] *)
Definition unlink (p : Path) : M unit :=
  λ s, match fs s !! p with
       | Some (File _) => (Ok (), emit (EvUnlink p) (set_fs (delete p (fs s)) s))
       | _ => (Raise OSError, s)
       end.

(** The captured result of a completed [subprocess.run]. *)
Record completed := CompletedProcess {
  returncode : Z;
  stdout : string;
  stderr : string
}.

Section Bridge.
Context `{Host}.

(** [subprocess.run(argv, env=..., capture_output=True, text=True, timeout=...)] *)
Definition subprocess_run (inv : invocation) : M completed :=
  λ s, let '(out, f) := subprocess inv (fs s) in
       let s' := emit (EvRun inv out) (set_fs f s) in
       match out with
       | Completed rc so se => (Ok (CompletedProcess rc so se), s')
       | TimedOut => (Raise TimeoutExpired, s')
       | SpawnError => (Raise OSError, s')
       end.

(** [asyncio.get_event_loop().time()] *)
Definition get_event_loop_time : M Q :=
  λ s, (Ok (loop_time (ticks s)),
        State (self s) (fs s) (trace s) (S (ticks s))).

(** [os.path.expanduser("~" + rest)] *)
Definition expanduser (rest : string) : string :=
  String.concat EmptyString (map (λ c, "/" +:+ c) home) +:+ rest.

(** [Path(s)]: relative strings are read from the working directory. *)
Definition Path_of (s : string) : Path := cwd </> s.

(** [os.environ.get("WINEPREFIX", os.path.expanduser("~/.wine-sv2"))] *)
Definition wineprefix_setting : string :=
  dict_get environ "WINEPREFIX" (expanduser "/.wine-sv2").

(** [AuthBridgeServer.get_wine_prefix] *)
Definition get_wine_prefix : M Path :=
  let bottle_name := environ !! "SV2_BOTTLE_NAME" in
  let fall_back := ret (Path_of wineprefix_setting) in
  match bottle_name with
  | Some name =>
      if truthy bottle_name then
        let bottles_prefix :=
          home </> ".var/app/com.usebottles.bottles/data/bottles/bottles"
               </> name in
        let* found := path_exists bottles_prefix in
        if found then ret bottles_prefix else fall_back
      else fall_back
  | None => fall_back
  end.

(** The license directory of a guest user:
    [wine_prefix / "drive_c" / "users" / user / "AppData" / "Roaming"
     / "Dreamtonics" / "Synthesizer V Studio 2" / "license"] *)
Definition license_dir (wine_prefix : Path) (user : string) : Path :=
  wine_prefix </> "drive_c" </> "users" </> user </> "AppData" </> "Roaming"
              </> "Dreamtonics" </> "Synthesizer V Studio 2" </> "license".

Definition cv_file (wine_prefix : Path) (user : string) : Path :=
  license_dir wine_prefix user </> "cv".

Definition cb_file (wine_prefix : Path) (user : string) : Path :=
  license_dir wine_prefix user </> "cb".

(** [["steamuser", "Public", os.environ.get("USER", "user")]] *)
Definition possible_users : list string :=
  ["steamuser"; "Public"; dict_get environ "USER" "user"].

(** The [for user in possible_users] loop of [_write_auth_code_to_cb_file];
    [otherwise] is the code after the loop. *)
Fixpoint for_user_in (wine_prefix : Path) (auth_code : string)
    (users : list string) (otherwise : M bool) : M bool :=
  match users with
  | [] => otherwise
  | user :: users' =>
      let* found := path_exists (cv_file wine_prefix user) in
      if found then
        write_file (cb_file wine_prefix user) (Text auth_code) ;;
        ret true
      else for_user_in wine_prefix auth_code users' otherwise
  end.

(** [AuthBridgeServer._write_auth_code_to_cb_file] *)
Definition _write_auth_code_to_cb_file (auth_code : string) : M bool :=
  try_except
    (let* wine_prefix := get_wine_prefix in
     for_user_in wine_prefix auth_code possible_users
       (let* found := path_exists (license_dir wine_prefix "steamuser") in
        if found then
          write_file (cb_file wine_prefix "steamuser") (Text auth_code) ;;
          ret true
        else ret false))
    (λ _, ret false).

(** ** The secondary channel: the registry *)

(** [r"HKEY_CURRENT_USER\Software\Dreamtonics\Synthesizer V Studio 2\Auth"] *)
Definition reg_key : string :=
  "HKEY_CURRENT_USER\Software\Dreamtonics\Synthesizer V Studio 2\Auth".

(** [int(t)] on a clock reading: truncation towards zero. *)
Definition int_of_time (t : Q) : Z := Z.quot (Qnum t) (Z.pos (Qden t)).

(** The argument vector of one [bottles-cli reg add] call. *)
Definition reg_add_argv (bottle_name value_name value_data : string)
    : list string :=
  ["flatpak"; "run"; "--command=bottles-cli"; "com.usebottles.bottles";
   "reg"; "add"; "-b"; bottle_name; "-k"; reg_key;
   "-v"; value_name; "-d"; value_data].

(** The [for value_name, value_data in reg_values] loop: [all_success]
    is the flag the loop maintains. *)
Fixpoint for_reg_value (bottle_name : string)
    (reg_values : list (string * string)) (all_success : bool) : M bool :=
  match reg_values with
  | [] => ret all_success
  | (value_name, value_data) :: rest =>
      let* result :=
        subprocess_run
          (Invocation (reg_add_argv bottle_name value_name value_data)
                      None None) in
      if negb (returncode result =? 0)%Z
      then for_reg_value bottle_name rest false
      else for_reg_value bottle_name rest all_success
  end.

(** One line ["name"="data"] of the registry script. *)
Definition reg_line (name data : string) : string :=
  dquote +:+ name +:+ dquote +:+ "=" +:+ dquote +:+ data +:+ dquote +:+ nl.

(** The registry script of the Plain branch. *)
Definition reg_content (auth_code state_ session_state issuer timestamp
    : string) : string :=
  "REGEDIT4" +:+ nl +:+ nl +:+
  "[HKEY_CURRENT_USER\Software\Dreamtonics\Synthesizer V Studio 2\Auth]"
    +:+ nl +:+
  reg_line "AuthCode" auth_code +:+
  reg_line "State" state_ +:+
  reg_line "SessionState" session_state +:+
  reg_line "Issuer" issuer +:+
  reg_line "AuthTimestamp" timestamp.

(** ["wine-staging" if shutil.which("wine-staging") else "wine"] *)
Definition wine_exe : string :=
  if which "wine-staging" then "wine-staging" else "wine".

(** [AuthBridgeServer._inject_registry_payload] *)
Definition _inject_registry_payload (params : gmap string string) : M bool :=
  try_except
    (let auth_code := dict_get params "code" EmptyString in
     let state_ := dict_get params "state" EmptyString in
     let session_state := dict_get params "session_state" EmptyString in
     let issuer := dict_get params "iss" EmptyString in
     let* now := get_event_loop_time in
     let timestamp := str_of_int (int_of_time now) in
     let reg_values :=
       [("AuthCode", auth_code); ("State", state_);
        ("SessionState", session_state); ("Issuer", issuer);
        ("AuthTimestamp", timestamp)] in
     let bottle_name := environ !! "SV2_BOTTLE_NAME" in
     if truthy bottle_name && which "flatpak" then
       let* all_success :=
         for_reg_value (default EmptyString bottle_name) reg_values true in
       if all_success then ret true else ret true
     else
       let* reg_file := (λ s, (Ok (mktemp (fs s)), s)) in
       write_file reg_file
         (Text (reg_content auth_code state_ session_state issuer timestamp)) ;;
       let* prefix := get_wine_prefix in
       let wine_prefix := str_of_path prefix in
       let* result :=
         subprocess_run
           (Invocation [wine_exe; "regedit"; str_of_path reg_file]
                       (Some wine_prefix) None) in
       unlink reg_file ;;
       ret (returncode result =? 0)%Z)
    (λ _, ret false).

(** ** The credential handoff writer *)

(** [AuthBridgeServer._store_auth_payload] *)
Definition _store_auth_payload (params : gmap string string) : M bool :=
  try_except
    (let* wine_prefix := get_wine_prefix in
     let token_file :=
       wine_prefix </> "drive_c" </> "users" </> "Public"
                   </> "sv2_auth_token.json" in
     let* token := (λ s, (Ok (auth_token (self s)), s)) in
     let* now := get_event_loop_time in
     let payload := JsonPayload token params now in
     mkdir (parent token_file) ;;
     write_file token_file payload ;;
     _inject_registry_payload params ;;
     let auth_code := params !! "code" in
     (if truthy auth_code
      then _write_auth_code_to_cb_file (default EmptyString auth_code) ;;
           ret ()
      else ret ()) ;;
     ret true)
    (λ _, ret false).

(** ** The capture endpoint *)

(** The bodies the handlers answer with. *)
Inductive page :=
| ForwardedPage        (** "Authentication Successful!", forwarded to SV2 *)
| ForwardFailedPage    (** "Failed to Forward to SV2" *)
| TokenAcceptedPage    (** "Authentication Successful!", direct token *)
| JsonMessage (status_field message : string)
| JsonStatus (authenticated has_auth_code : bool)
             (info : option user_info_t).

Record response := Response {
  status : nat;
  body : page
}.

(** The names [class AuthBridgeServer] defines, and the attributes
    [__init__] sets on an instance. *)
Definition AuthBridgeServer_attributes : list string :=
  ["__init__"; "get_wine_prefix"; "_setup_routes"; "_setup_cors";
   "index_handler"; "auth_start_handler"; "auth_callback_handler";
   "auth_status_handler"; "auth_inject_handler"; "static_handler";
   "_store_auth_payload"; "_write_auth_code_to_cb_file";
   "_inject_registry_payload"; "setup_uri_handler"; "_extract_uri_params";
   "forward_uri_to_callback"; "_find_sv2_executable"; "_to_windows_path";
   "setup_wine_protocol_handler"; "forward_uri_to_wine"; "start_server";
   "stop_server";
   "port"; "logger"; "app"; "session_store"; "auth_token"; "user_info";
   "last_auth_params"; "redirect_uri_used"].

(** [self.<name>]: a name that is neither defined by the class nor set on
    the instance raises [AttributeError]. *)
Definition getattr (name : string) : M unit :=
  if bool_decide (name ∈ AuthBridgeServer_attributes)
  then ret ()
  else raise (AttributeError name).

(** [await self._inject_auth_token()]: the attribute lookup comes first;
    the class has no body for the call that would follow it. *)
Definition call_inject_auth_token : M bool :=
  getattr "_inject_auth_token" ;; ret false.

Definition get_self : M server := λ s, (Ok (self s), s).

Definition set_last_auth_params (v : option (gmap string string)) : M unit :=
  λ s, let o := self s in
       (Ok (), set_self (Server (port o) (auth_token o) (user_info o) v
                                (redirect_uri_used o)) s).

Definition set_auth_token (v : option string) : M unit :=
  λ s, let o := self s in
       (Ok (), set_self (Server (port o) v (user_info o) (last_auth_params o)
                                (redirect_uri_used o)) s).

Definition set_user_info (v : option user_info_t) : M unit :=
  λ s, let o := self s in
       (Ok (), set_self (Server (port o) (auth_token o) v (last_auth_params o)
                                (redirect_uri_used o)) s).

(** [AuthBridgeServer.auth_callback_handler]; [params] is
    [dict(request.query)]. *)
Definition auth_callback_handler (params : gmap string string) : M response :=
  set_last_auth_params (Some params) ;;
  if dict_has params "code" then
    let* success := _store_auth_payload params in
    if success then ret (Response 200 ForwardedPage)
    else ret (Response 500 ForwardFailedPage)
  else
    let access_token := py_or (params !! "access_token") (params !! "token") in
    if truthy access_token then
      set_auth_token access_token ;;
      set_user_info
        (Some (UserInfo
           (py_or_str (py_or (params !! "user_id") (params !! "uid"))
                      EmptyString)
           (py_or_str (py_or (params !! "username") (params !! "user"))
                      EmptyString)
           (py_or_str (params !! "email") EmptyString))) ;;
      call_inject_auth_token ;;
      ret (Response 200 TokenAcceptedPage)
    else
      ret (Response 400
             (JsonMessage "error"
                "Invalid authentication callback - no code or token")).

(** [bool(self.last_auth_params and "code" in self.last_auth_params)] *)
Definition has_auth_code (o : server) : bool :=
  match last_auth_params o with
  | Some d => bool_decide (d ≠ ∅) && dict_has d "code"
  | None => false
  end.

(** The JSON object [auth_status_handler] answers with. *)
Definition status_of (o : server) : page :=
  JsonStatus (bool_decide (is_Some (auth_token o)))
             (has_auth_code o)
             (user_info o).

(** [AuthBridgeServer.auth_status_handler] *)
Definition auth_status_handler : M response :=
  let* o := get_self in
  ret (Response 200 (status_of o)).

(** [AuthBridgeServer.auth_inject_handler] *)
Definition auth_inject_handler : M response :=
  let* o := get_self in
  if negb (truthy (auth_token o)) then
    ret (Response 400 (JsonMessage "error" "No authentication token available"))
  else
    let* success := call_inject_auth_token in
    ret (Response 200
           (JsonMessage (if success then "success" else "error")
              ("Token injection " +:+
               (if success then "successful" else "failed")))).

(** ** The environment resolver *)

Definition exe_name : string := "synthv-studio.exe".

(** The known install locations under [drive_c], in probing order. *)
Definition exe_candidates (drive_c : Path) : list Path :=
  [drive_c </> "svstudio2_app" </> exe_name;
   drive_c </> "Program Files" </> "Dreamtonics" </> "Synthesizer V Studio 2"
           </> exe_name;
   drive_c </> "Program Files (x86)" </> "Dreamtonics"
           </> "Synthesizer V Studio 2" </> exe_name].

(** [for candidate in candidates: if candidate.exists(): return candidate] *)
Fixpoint for_candidate_in (candidates : list Path)
    (otherwise : M (option Path)) : M (option Path) :=
  match candidates with
  | [] => otherwise
  | candidate :: rest =>
      let* found := path_exists candidate in
      if found then ret (Some candidate) else for_candidate_in rest otherwise
  end.

(** Whether [p] lies strictly below [dir] and its last component is [name]. *)
Definition rglob_match (dir : Path) (name : string) (p : Path) : bool :=
  match relative_to p dir with
  | Some rel => bool_decide (last rel = Some name)
  | None => false
  end.

(** The first entry [dir.rglob(name)] yields.  The order in which a
    directory is listed is not specified; the enumeration of the map stands
    for it. *)
Definition rglob_first (dir : Path) (name : string) : M (option Path) :=
  λ s, (Ok (head (filter (λ p, rglob_match dir name p = true)
                         (map fst (map_to_list (fs s))))),
        emit (EvRglob dir name) s).

(** [AuthBridgeServer._find_sv2_executable] *)
Definition _find_sv2_executable (wine_prefix : string) : M (option Path) :=
  let prefix_path := Path_of wine_prefix in
  let drive_c := prefix_path </> "drive_c" in
  for_candidate_in (exe_candidates drive_c)
    (try_except (rglob_first drive_c exe_name) (λ _, ret None)).

(** [AuthBridgeServer._to_windows_path] *)
Definition _to_windows_path (unix_path : Path) (wine_prefix : string)
    : string :=
  let prefix := resolve (Path_of wine_prefix) in
  let path := resolve unix_path in
  match relative_to path (prefix </> "drive_c") with
  | Some rel => "C:\" +:+ join "\" rel
  | None => str_of_path unix_path
  end.

(** ** The delivery fallback chain *)

(** The leading arguments of every call through the management tool. *)
Definition bottles_cli : list string :=
  ["flatpak"; "run"; "--command=bottles-cli"; "com.usebottles.bottles"].

(** Method 0: [shell_cmd = f'start "" "{uri}"'] through [bottles-cli shell]. *)
Definition shell_invocation (bottle uri : string) : invocation :=
  Invocation
    (bottles_cli ++
     ["shell"; "-b"; bottle; "-i";
      "start " +:+ dquote +:+ dquote +:+ " " +:+ dquote +:+ uri +:+ dquote])
    None (Some 15).

(** The error test of method 0 on [stderr_text]. *)
Definition shell_error (stderr_text : string) : bool :=
  str_in "/bin/sh" stderr_text
  || str_in "unexpected" (lower stderr_text)
  || str_in "ShellExecuteEx failed" stderr_text.

(** [result.returncode == 0 and not shell_error] of method 0 *)
Definition shell_ok (result : completed) : bool :=
  (returncode result =? 0)%Z && negb (shell_error (stderr result)).

(** Method 1: the batch file run through [bottles-cli run -e cmd.exe]. *)
Definition bat_content : string :=
  "@echo off" +:+ nl +:+
  "setlocal" +:+ nl +:+
  "set /p SV2_URI=<C:\sv2_uri.txt" +:+ nl +:+
  "start " +:+ dquote +:+ dquote +:+ " " +:+ dquote +:+ "%SV2_URI%"
    +:+ dquote +:+ nl.

Definition cmd_invocation (bottle : string) : invocation :=
  Invocation
    (bottles_cli ++
     ["run"; "-b"; bottle; "-e"; "C:\windows\system32\cmd.exe"; "/c";
      "C:\sv2_open_uri.bat"])
    None (Some 8).

(** The error test of method 1. *)
Definition cmd_error (stderr_text : string) : bool :=
  str_in "Executable file path does not exist" stderr_text
  || str_in "ShellExecuteEx" stderr_text
  || str_in "/bin/sh" stderr_text
  || str_in "unexpected" (lower stderr_text).

Definition cmd_ok (result : completed) : bool :=
  (returncode result =? 0)%Z && negb (cmd_error (stderr result)).

(** Method 2: [rundll32 url.dll,FileProtocolHandler]. *)
Definition rundll32_invocation (bottle uri : string) : invocation :=
  Invocation
    (bottles_cli ++
     ["run"; "-b"; bottle; "-e"; "C:\windows\system32\rundll32.exe";
      "url.dll,FileProtocolHandler"; uri])
    None (Some 8).

(** The error test of method 2. *)
Definition rundll32_error (stderr_text : string) : bool :=
  str_in "/bin/sh" stderr_text || str_in "unexpected" (lower stderr_text).

Definition rundll32_ok (result : completed) : bool :=
  (returncode result =? 0)%Z && negb (rundll32_error (stderr result)).

(** Method 3: the executable itself with the URI as argument. *)
Definition direct_invocation (bottle exe_win_path uri : string) : invocation :=
  Invocation (bottles_cli ++ ["run"; "-b"; bottle; "-e"; exe_win_path; uri])
             None (Some 8).

(** [result.returncode == 0]: the test of method 3 and of the Plain chain. *)
Definition exit_ok (result : completed) : bool := (returncode result =? 0)%Z.

(** The two calls of the Plain chain. *)
Definition wine_start_invocation (wine_prefix uri : string) : invocation :=
  Invocation [wine_exe; "start"; uri] (Some wine_prefix) None.

Definition wine_rundll32_invocation (wine_prefix uri : string) : invocation :=
  Invocation [wine_exe; "rundll32"; "url.dll,FileProtocolHandler"; uri]
             (Some wine_prefix) None.

(** The chain through the management tool: the body of
    [if bottle and shutil.which("flatpak")]. *)
Definition forward_via_bottles (uri bottle : string) : M bool :=
  (* Method 0 *)
  let* done0 :=
    try_except
      (let* result := subprocess_run (shell_invocation bottle uri) in
       ret (shell_ok result))
      (λ _, ret false) in
  if done0 then ret true else
  (* Method 1 *)
  let* wine_prefix := get_wine_prefix in
  let uri_path := wine_prefix </> "drive_c" </> "sv2_uri.txt" in
  let bat_path := wine_prefix </> "drive_c" </> "sv2_open_uri.bat" in
  write_file uri_path (Text uri) ;;
  write_file bat_path (Text bat_content) ;;
  let* done1 :=
    try_except
      (let* result := subprocess_run (cmd_invocation bottle) in
       ret (cmd_ok result))
      (λ _, ret false) in
  if done1 then ret true else
  (* Method 2 *)
  let* done2 :=
    try_except
      (let* result := subprocess_run (rundll32_invocation bottle uri) in
       ret (rundll32_ok result))
      (λ _, ret false) in
  if done2 then ret true else
  (* Method 3 *)
  let* exe_path := _find_sv2_executable (str_of_path wine_prefix) in
  let exe_win_path :=
    match exe_path with
    | Some exe => _to_windows_path exe (str_of_path wine_prefix)
    | None => "C:\svstudio2_app\synthv-studio.exe"
    end in
  try_except
    (let* result := subprocess_run (direct_invocation bottle exe_win_path uri) in
     ret (exit_ok result))
    (λ _, ret false).

(** The chain without management tool: the code after the [if]. *)
Definition forward_via_wine (uri : string) : M bool :=
  let wine_prefix := wineprefix_setting in
  try_except
    (let* result := subprocess_run (wine_start_invocation wine_prefix uri) in
     if exit_ok result then ret true else
     let* result := subprocess_run (wine_rundll32_invocation wine_prefix uri) in
     ret (exit_ok result))
    (λ _, ret false).

(** [bottle and shutil.which("flatpak")]: the Managed variant is chosen. *)
Definition managed (bottle : option string) : bool :=
  truthy bottle && which "flatpak".

(** [AuthBridgeServer.forward_uri_to_wine] *)
Definition forward_uri_to_wine (uri : string) (bottle_name : option string)
    : M bool :=
  let bottle := py_or bottle_name (environ !! "SV2_BOTTLE_NAME") in
  if managed bottle
  then forward_via_bottles uri (default EmptyString bottle)
  else forward_via_wine uri.

End Bridge.

(** ** Reading a run *)

(** The state after [evs] more events. *)
Definition add_events (evs : list event) (s : state) : state :=
  State (self s) (fs s) (trace s ++ evs) (ticks s).

(** The events a computation adds when started in [s]. *)
Definition events_of {A} (m : M A) (s : state) : list event :=
  drop (length (trace s)) (trace (snd (m s))).

(** The external calls among a list of events, with their outcomes. *)
Fixpoint runs (evs : list event) : list (invocation * proc_outcome) :=
  match evs with
  | [] => []
  | EvRun inv out :: evs' => (inv, out) :: runs evs'
  | _ :: evs' => runs evs'
  end.

(** The probe events of the candidates that have no sentinel. *)
Definition missed (wp : Path) (users : list string) : list event :=
  map (λ v, EvExists (cv_file wp v) false) users.


(** A computation that leaves the attributes of the server as they are. *)
Definition keeps_self {A} (m : M A) : Prop :=
  ∀ s, self (snd (m s)) = self s.

(** The state a run started in [s] ends in when it only touched the file
    system, leaving it as [f], and added the events [evs]. *)
Definition after (s : state) (f : FS) (evs : list event) : state :=
  State (self s) f (trace s ++ evs) (ticks s).

(** The value a run returned, if it returned. *)
Definition fst_ok {A} (r : result A * state) : option A :=
  match fst r with
  | Ok a => Some a
  | Raise _ => None
  end.

(** A computation that always returns: no exception leaves it. *)
Definition never_raises {A} (m : M A) : Prop :=
  ∀ s, ∃ a, fst (m s) = Ok a.

(** ** The methods of the delivery chain and their classification *)

Inductive method :=
| ShellBridge          (** Method 0: [bottles-cli shell -i 'start ...'] *)
| BatchIndirection     (** Method 1: the batch file through [cmd.exe] *)
| ProtocolDispatch     (** Method 2: [rundll32 url.dll,FileProtocolHandler] *)
| DirectExecutable     (** Method 3: the executable with the URI *)
| WineStart            (** Plain: [wine start uri] *)
| WineProtocolDispatch (** Plain: [wine rundll32 url.dll,...] *).

Inductive outcome :=
| Success
| Failure
| StepTimedOut.

(** The methods in the order the code runs them. *)
Definition managed_chain : list method :=
  [ShellBridge; BatchIndirection; ProtocolDispatch; DirectExecutable].

Definition plain_chain : list method := [WineStart; WineProtocolDispatch].

(** The scan each method applies to the captured [stderr]; the last method
    of the Managed chain and the Plain chain scan nothing. *)
Definition method_error (m : method) (stderr_text : string) : bool :=
  match m with
  | ShellBridge => shell_error stderr_text
  | BatchIndirection => cmd_error stderr_text
  | ProtocolDispatch => rundll32_error stderr_text
  | DirectExecutable | WineStart | WineProtocolDispatch => false
  end.

(** The test under which each method makes the chain return [True]. *)
Definition method_ok (m : method) : completed → bool :=
  match m with
  | ShellBridge => shell_ok
  | BatchIndirection => cmd_ok
  | ProtocolDispatch => rundll32_ok
  | DirectExecutable | WineStart | WineProtocolDispatch => exit_ok
  end.

(** Whether a call's outcome passes a test on completed processes: the two
    exceptions never do. *)
Definition passes (ok : completed → bool) (out : proc_outcome) : bool :=
  match out with
  | Completed rc so se => ok (CompletedProcess rc so se)
  | TimedOut | SpawnError => false
  end.

(** The outcome of an attempt, as the code treats it. *)
Definition classify (m : method) (out : proc_outcome) : outcome :=
  match out with
  | Completed rc so se =>
      if method_ok m (CompletedProcess rc so se) then Success else Failure
  | TimedOut => StepTimedOut
  | SpawnError => Failure
  end.

Section Chain.
Context `{Host}.

(** The chain [forward_uri_to_wine] follows for its arguments. *)
Definition chain_of (bottle_name : option string) : list method :=
  if managed (py_or bottle_name (environ !! "SV2_BOTTLE_NAME"))
  then managed_chain else plain_chain.

(** [inv] is the call method [m] makes for [uri] in bottle [bottle]. *)
Definition is_call_of (m : method) (bottle uri : string) (inv : invocation)
    : Prop :=
  match m with
  | ShellBridge => inv = shell_invocation bottle uri
  | BatchIndirection => inv = cmd_invocation bottle
  | ProtocolDispatch => inv = rundll32_invocation bottle uri
  | DirectExecutable => ∃ exe_win_path,
      inv = direct_invocation bottle exe_win_path uri
  | WineStart => inv = wine_start_invocation wineprefix_setting uri
  | WineProtocolDispatch => inv = wine_rundll32_invocation wineprefix_setting uri
  end.

(** The drive root of a prefix: [Path(wine_prefix).resolve() / "drive_c"]. *)
Definition drive_root (wine_prefix : string) : Path :=
  resolve (Path_of wine_prefix) </> "drive_c".

End Chain.

(** ** The wording of the specification *)

(** The target the specification describes for the primary channel: the
    [cb] file of the first candidate whose sentinel exists; failing that, of
    the first candidate whose directory exists; failing that, none. *)
Definition spec_handoff_target (f : FS) (wp : Path) (users : list string)
    : option Path :=
  match List.find (λ u, fs_exists f (cv_file wp u)) users with
  | Some u => Some (cb_file wp u)
  | None =>
      match List.find (λ u, fs_exists f (license_dir wp u)) users with
      | Some u => Some (cb_file wp u)
      | None => None
      end
  end.

(** The known error signatures the specification lists: shell-syntax
    complaints, ShellExecute failure markers, executable-not-found markers
    and unexpected-token parser errors. *)
Definition spec_known_signature (diagnostic : string) : bool :=
  str_in "/bin/sh" diagnostic
  || str_in "ShellExecuteEx" diagnostic
  || str_in "Executable file path does not exist" diagnostic
  || str_in "unexpected" (lower diagnostic).

(** [s[n:]] *)
Fixpoint str_drop (n : nat) (s : string) : string :=
  match n, s with
  | S n', String _ s' => str_drop n' s'
  | _, _ => s
  end.

(** Whether the character [a] occurs in [s]. *)
Fixpoint has_char (a : ascii) (s : string) : bool :=
  match s with
  | EmptyString => false
  | String b s' => Ascii.eqb b a || has_char a s'
  end.

(** The reverse mapping the specification speaks of: the guest path without
    its drive letter, cut at the backslashes, below the drive root. *)
Definition spec_reverse_map (root : Path) (guest : string) : Path :=
  root ++ filter (λ c, c ≠ EmptyString) (split_on backslash (str_drop 3 guest)).

(** A component that survives the translation: not empty, no backslash. *)
Definition plain_component (c : string) : Prop :=
  c ≠ EmptyString ∧ has_char backslash c = false.

(** ** Scenarios: concrete hosts, file systems and requests *)

Module Scenario.

Definition alice : Path := ["home"; "alice"].

Definition prefix : Path := alice ++ [".wine-sv2"].

(** An external program that exits with status 0 and touches nothing. *)
Definition quiet (inv : invocation) (f : FS) : proc_outcome * FS :=
  (Completed 0 EmptyString EmptyString, f).

Definition host (env : gmap string string) (flatpak : bool)
    (sub : invocation → FS → proc_outcome * FS) : Host :=
  {| environ := env;
     home := alice;
     cwd := alice;
     which := λ name, flatpak && String.eqb name "flatpak";
     resolve := λ p, p;
     subprocess := sub;
     loop_time := λ n, inject_Z (Z.of_nat n);
     mktemp := λ _, ["tmp"; "tmpk3x9.reg"] |}.

(** A host without management tool. *)
Definition plain_host (sub : invocation → FS → proc_outcome * FS) : Host :=
  host {[ "USER" := "alice" ]} false sub.

(** A host with a configured bottle and [flatpak] on the search path. *)
Definition bottle_host (sub : invocation → FS → proc_outcome * FS) : Host :=
  host (<[ "SV2_BOTTLE_NAME" := "sv2" ]> {[ "USER" := "alice" ]}) true sub.

(** The four methods of the Managed chain answer with the given outcomes. *)
Definition managed_script (o0 o1 o2 o3 : proc_outcome)
    (inv : invocation) (f : FS) : proc_outcome * FS :=
  if bool_decide (argv inv !! 4%nat = Some "shell") then (o0, f)
  else if bool_decide (argv inv !! 8%nat = Some "C:\windows\system32\cmd.exe")
  then (o1, f)
  else if bool_decide
            (argv inv !! 8%nat = Some "C:\windows\system32\rundll32.exe")
  then (o2, f)
  else (o3, f).

(** The two methods of the Plain chain answer with the given outcomes. *)
Definition plain_script (o0 o1 : proc_outcome)
    (inv : invocation) (f : FS) : proc_outcome * FS :=
  if bool_decide (argv inv !! 1%nat = Some "start") then (o0, f) else (o1, f).

Definition mkdirs (p : Path) (f : FS) : FS := default f (mkdir_parents f p).

(** Only the home directory and the temporary directory exist. *)
Definition fs_bare : FS :=
  mkdirs ["tmp"] (mkdirs alice {[ [] := Dir ]}).

(** A prefix with its drive and nothing installed. *)
Definition fs_drive_c : FS := mkdirs (prefix ++ ["drive_c"]) fs_bare.

(** Only the license directory of [Public] exists; no sentinel anywhere. *)
Definition fs_public_only : FS := mkdirs (license_dir prefix "Public") fs_bare.

(** The license directory of [steamuser] exists, without sentinel. *)
Definition fs_steamuser_dir : FS :=
  mkdirs (license_dir prefix "steamuser") fs_bare.

(** Scenario A: the sentinel exists only under [steamuser]. *)
Definition fs_steamuser_cv : FS :=
  <[ cv_file prefix "steamuser" := File (Text "verifier") ]> fs_steamuser_dir.

(** The host of the handoff scenarios: no bottle, quiet programs. *)
Definition quiet_host : Host := plain_host quiet.

Definition start (o : server) (f : FS) : state := State o f [] 0.

Definition fresh : server := __init__ 8888%Z.

(** A server that has seen a code before. *)
Definition seen_code : server :=
  Server 8888%Z None None (Some {[ "code" := "abc123" ]}) None.

Definition uri : string := "dreamtonics-svstudio2://auth/callback?code=abc123".

Definition ok_exit : proc_outcome := Completed 0 EmptyString EmptyString.

(** Scenario B: the shell bridge exits with status 0 and a shell-syntax
    complaint on [stderr]; the batch file then works. *)
Definition shell_complaint : string :=
  "/bin/sh: 1: Syntax error: Unterminated quoted string".

Definition scenario_B_host : Host :=
  bottle_host
    (managed_script (Completed 0 EmptyString shell_complaint) ok_exit
                    TimedOut TimedOut).

(** The shell bridge exits with status 0 and the executable-not-found
    marker on [stderr]. *)
Definition not_found_marker : string :=
  "Executable file path does not exist".

Definition not_found_host : Host :=
  bottle_host
    (managed_script (Completed 0 EmptyString not_found_marker) ok_exit
                    ok_exit ok_exit).

(** Without management tool: [wine start] exits with status 0 and a
    shell-syntax complaint on [stderr]. *)
Definition plain_complaint_host : Host :=
  plain_host
    (plain_script (Completed 0 EmptyString shell_complaint) ok_exit).

(** Without management tool: [wine start] exits with status 1, the
    protocol-dispatch utility with status 0. *)
Definition plain_second_host : Host :=
  plain_host (plain_script (Completed 1 EmptyString EmptyString) ok_exit).

(** Two different entries of the drive whose translations coincide. *)
Definition odd_name : Path := prefix ++ ["drive_c"; "a\b"].
Definition nested : Path := prefix ++ ["drive_c"; "a"; "b"].

End Scenario.

(** ** Further handlers and set-up functions *)


(** The files [static_handler] is willing to serve. *)
Definition static_files : list string := ["style.css"; "script.js"].

(** [AuthBridgeServer.static_handler]: [module_dir] is
    [Path(__file__).parent] and [filename] is
    [request.match_info["filename"]]; the answer is the path handed to
    [web.FileResponse], or [None] where the handler raises
    [web.HTTPNotFound]. *)
Definition static_handler (module_dir : Path) (filename : string)
    : M (option Path) :=
  if negb (bool_decide (filename ∈ static_files)) then ret None
  else
    let static_dir := module_dir </> "static" in
    let file_path := static_dir </> filename in
    let* found := path_exists file_path in
    if negb found then ret None else ret (Some file_path).

Section Setup.
Context `{Host}.







(** The registry script that registers the protocol inside the prefix. *)
Definition protocol_reg_content (exe_win_path : string) : string :=
  "REGEDIT4" +:+ nl +:+ nl +:+
  "[HKEY_CURRENT_USER\Software\Classes\dreamtonics-svstudio2]" +:+ nl +:+
  "@=" +:+ dquote +:+ "URL:Dreamtonics SVStudio2 Protocol" +:+ dquote
    +:+ nl +:+
  dquote +:+ "URL Protocol" +:+ dquote +:+ "=" +:+ dquote +:+ dquote
    +:+ nl +:+ nl +:+
  "[HKEY_CURRENT_USER\Software\Classes\dreamtonics-svstudio2\shell\open\command]"
    +:+ nl +:+
  "@=" +:+ dquote +:+ "\" +:+ dquote +:+ exe_win_path +:+ "\" +:+ dquote
    +:+ " " +:+ "\" +:+ dquote +:+ "%1" +:+ "\" +:+ dquote +:+ dquote
    +:+ nl.

(** The import of the script through the management tool. *)
Definition bottles_regedit_invocation (bottle : string) : invocation :=
  Invocation
    (bottles_cli ++
     ["run"; "-b"; bottle; "-e"; "regedit"; "C:\sv2_protocol.reg"])
    None None.

(** The import of the script through [wine regedit]. *)
Definition wine_regedit_invocation (wine_prefix : string) (reg_file : Path)
    : invocation :=
  Invocation [wine_exe; "regedit"; str_of_path reg_file]
             (Some wine_prefix) None.

(** [wine_prefix] of [setup_wine_protocol_handler]: the resolved prefix
    when a bottle is named, the [WINEPREFIX] setting otherwise; the first
    component is [str(wine_prefix)], the second [Path(wine_prefix)]. *)
Definition protocol_wine_prefix (bottle : option string)
    : M (string * Path) :=
  if truthy bottle then
    let* p := get_wine_prefix in ret (str_of_path p, p)
  else ret (wineprefix_setting, Path_of wineprefix_setting).

(** [AuthBridgeServer.setup_wine_protocol_handler] *)
Definition setup_wine_protocol_handler (bottle_name : option string)
    : M bool :=
  let bottle := py_or bottle_name (environ !! "SV2_BOTTLE_NAME") in
  let* wine_prefix := protocol_wine_prefix bottle in
  let* exe_path := _find_sv2_executable (fst wine_prefix) in
  match exe_path with
  | None => ret false
  | Some exe =>
      let exe_win_path := _to_windows_path exe (fst wine_prefix) in
      let reg_content := protocol_reg_content exe_win_path in
      try_except
        (if managed bottle then
           let reg_file :=
             snd wine_prefix </> "drive_c" </> "sv2_protocol.reg" in
           write_file reg_file (Text reg_content) ;;
           let* result :=
             subprocess_run
               (bottles_regedit_invocation (default EmptyString bottle)) in
           ret (returncode result =? 0)%Z
         else
           let reg_dir := home </> ".sv2-bridge" in
           mkdir reg_dir ;;
           let reg_file := reg_dir </> "sv2_protocol.reg" in
           write_file reg_file (Text reg_content) ;;
           let* result :=
             subprocess_run
               (wine_regedit_invocation (fst wine_prefix) reg_file) in
           ret (returncode result =? 0)%Z)
        (λ _, ret false)
  end.

End Setup.

(** ** Notions used by the further properties *)

(** The outcome of a run of the primary channel started on the file system
    [f0]: either it returned [True] and the only change is that the [cb]
    file of one of [users] now holds the code, or it did not return [True]
    and the file system is as before. *)
Definition placed_or_untouched (wp : Path) (c : string) (users : list string)
    (f0 : FS) (r : result bool * state) : Prop :=
  (fst r = Ok true
   ∧ ∃ u, u ∈ users ∧ fs (snd r) = <[cb_file wp u := File (Text c)]> f0)
  ∨ (fst r ≠ Ok true ∧ fs (snd r) = f0).

(** The diagnostic payload file of a prefix. *)
Definition token_file (wp : Path) : Path :=
  wp </> "drive_c" </> "users" </> "Public" </> "sv2_auth_token.json".

(** The payload file of the prefix [wp] can be written on [f]: its
    directory can be created and the file opened. *)
Definition payload_writable (f : FS) (wp : Path) : Prop :=
  ∃ f1, mkdir_parents f (parent (token_file wp)) = Some f1
        ∧ writable f1 (token_file wp) = true.

(** No file of [f'] is new or changed with respect to [f]. *)
Definition no_file_changed (f f' : FS) : Prop :=
  ∀ p d, f' !! p = Some (File d) → f !! p = Some (File d).

(** [p] is an entry named [synthv-studio.exe] somewhere below [drive_c]. *)
Definition is_executable_below (drive_c p : Path) : Prop :=
  ∃ rel, p = drive_c ++ rel ∧ last rel = Some exe_name.

(** The five registry values of a capture, in the order they are written;
    [now] is the clock reading taken for the timestamp. *)
Definition registry_values (params : gmap string string) (now : Q)
    : list (string * string) :=
  [("AuthCode", dict_get params "code" EmptyString);
   ("State", dict_get params "state" EmptyString);
   ("SessionState", dict_get params "session_state" EmptyString);
   ("Issuer", dict_get params "iss" EmptyString);
   ("AuthTimestamp", str_of_int (int_of_time now))].

(** The registry script of a capture. *)
Definition registry_script (params : gmap string string) (now : Q)
    : content :=
  Text (reg_content (dict_get params "code" EmptyString)
                    (dict_get params "state" EmptyString)
                    (dict_get params "session_state" EmptyString)
                    (dict_get params "iss" EmptyString)
                    (str_of_int (int_of_time now))).

(** Every external program completes, whatever its exit status. *)
Definition programs_complete `{Host} : Prop :=
  ∀ inv f, ∃ rc so se f', subprocess inv f = (Completed rc so se, f').

Module MoreScenarios.
Import Scenario.

(** Sentinels under both [steamuser] and [Public]. *)
Definition fs_two_sentinels : FS :=
  <[ cv_file prefix "Public" := File (Text "verifier-2") ]>
    (mkdirs (license_dir prefix "Public") fs_steamuser_cv).

(** The executable at its first known location and a second copy. *)
Definition fs_installed : FS :=
  <[ prefix ++ ["drive_c"; "svstudio2_app"; "synthv-studio.exe"]
       := File (Text "MZ") ]>
    (<[ prefix ++ ["drive_c"; "backup"; "synthv-studio.exe"]
          := File (Text "MZ") ]>
       (mkdirs (prefix ++ ["drive_c"; "backup"])
          (mkdirs (prefix ++ ["drive_c"; "svstudio2_app"]) fs_bare))).

(** The executable only at an unusual place. *)
Definition fs_unusual : FS :=
  <[ prefix ++ ["drive_c"; "backup"; "synthv-studio.exe"]
       := File (Text "MZ") ]>
    (mkdirs (prefix ++ ["drive_c"; "backup"]) fs_bare).

(** A prefix in which [drive_c/users] is a file: the payload directory
    cannot be created. *)
Definition fs_blocked : FS :=
  <[ prefix ++ ["drive_c"; "users"] := File (Text "not a directory") ]>
    fs_drive_c.

(** A bottle host with quiet programs. *)
Definition quiet_bottle_host : Host := bottle_host quiet.

(** The shell bridge times out, the batch file cannot be started, the
    protocol dispatch exits with status 0. *)
Definition timeout_host : Host :=
  bottle_host (managed_script TimedOut SpawnError ok_exit ok_exit).

(** Every method of the Managed chain fails. *)
Definition failing_host : Host :=
  bottle_host
    (managed_script TimedOut TimedOut
       (Completed 1 EmptyString EmptyString)
       (Completed 1 EmptyString EmptyString)).

(** No program can be started. *)
Definition no_programs (inv : invocation) (f : FS) : proc_outcome * FS :=
  (SpawnError, f).

Definition no_programs_host : Host := plain_host no_programs.

End MoreScenarios.

(** ** The definitions at work *)

Example parts_of_collapses :
  parts_of "/home//alice/./.wine-sv2/" = ["home"; "alice"; ".wine-sv2"].
Proof. reflexivity. Qed.

Example pjoin_absolute_replaces :
  ["home"; "alice"] </> "/opt/prefix" = ["opt"; "prefix"].
Proof. reflexivity. Qed.

Example license_dir_steamuser :
  str_of_path (license_dir ["home"; "alice"; ".wine-sv2"] "steamuser")
  = "/home/alice/.wine-sv2/drive_c/users/steamuser/AppData/Roaming/Dreamtonics/Synthesizer V Studio 2/license".
Proof. reflexivity. Qed.

Example shell_error_any_case : shell_error "sh: UnExpected EOF" = true.
Proof. reflexivity. Qed.

Example shell_error_needs_failed :
  shell_error "ShellExecuteEx" = false ∧ cmd_error "ShellExecuteEx" = true.
Proof. split; reflexivity. Qed.

Example split_on_keeps_empty_pieces :
  split_on backslash "a\\b" = ["a"; EmptyString; "b"].
Proof. reflexivity. Qed.

Example str_of_int_negative : str_of_int (-12) = "-12".
Proof. reflexivity. Qed.

(** ** Basic facts *)

Lemma emit_add_events e s : emit e s = add_events [e] s.
Proof. reflexivity. Qed.

Lemma add_events_nil s : add_events [] s = s.
Proof. destruct s; unfold add_events; simpl. by rewrite app_nil_r. Qed.

Lemma add_events_app evs1 evs2 s :
  add_events evs2 (add_events evs1 s) = add_events (evs1 ++ evs2) s.
Proof. unfold add_events; simpl. by rewrite app_assoc. Qed.

Lemma fs_emit e s : fs (emit e s) = fs s.
Proof. reflexivity. Qed.

Lemma fs_add_events evs s : fs (add_events evs s) = fs s.
Proof. reflexivity. Qed.

Lemma fs_set_fs f s : fs (set_fs f s) = f.
Proof. reflexivity. Qed.

Lemma self_emit e s : self (emit e s) = self s.
Proof. reflexivity. Qed.

Lemma self_add_events evs s : self (add_events evs s) = self s.
Proof. reflexivity. Qed.

Lemma self_set_fs f s : self (set_fs f s) = self s.
Proof. reflexivity. Qed.

Lemma ticks_emit e s : ticks (emit e s) = ticks s.
Proof. reflexivity. Qed.

Lemma ticks_add_events evs s : ticks (add_events evs s) = ticks s.
Proof. reflexivity. Qed.

Lemma ticks_set_fs f s : ticks (set_fs f s) = ticks s.
Proof. reflexivity. Qed.

Lemma trace_emit e s : trace (emit e s) = trace s ++ [e].
Proof. reflexivity. Qed.

Lemma trace_add_events evs s : trace (add_events evs s) = trace s ++ evs.
Proof. reflexivity. Qed.

Lemma trace_set_fs f s : trace (set_fs f s) = trace s.
Proof. reflexivity. Qed.

Create Rewrite HintDb st.
#[export] Hint Rewrite fs_emit fs_add_events fs_set_fs self_emit
  self_add_events self_set_fs ticks_emit ticks_add_events ticks_set_fs
  trace_emit trace_add_events trace_set_fs : st.

Lemma runs_app evs1 evs2 : runs (evs1 ++ evs2) = runs evs1 ++ runs evs2.
Proof.
  induction evs1 as [|e evs1 IH]; [done|].
  destruct e; simpl; by rewrite ?IH.
Qed.

Lemma parent_snoc (p : Path) (c : string) : parent (p ++ [c]) = p.
Proof. unfold parent. apply removelast_last. Qed.

Lemma pjoin_cv p : p </> "cv" = p ++ ["cv"].
Proof. reflexivity. Qed.

Lemma pjoin_cb p : p </> "cb" = p ++ ["cb"].
Proof. reflexivity. Qed.

Lemma fs_exists_is_dir f p : is_dir f p = true → fs_exists f p = true.
Proof.
  unfold is_dir, fs_exists. by destruct (f !! p) as [[]|].
Qed.

(** A target file below an existing directory can be written unless it is
    itself a directory. *)
Lemma writable_child f (d : Path) (c : string) :
  is_dir f d = true → is_dir f (d ++ [c]) = false → writable f (d ++ [c]) = true.
Proof.
  intros Hd Hc. unfold writable. rewrite parent_snoc, Hd, Hc. simpl.
  apply bool_decide_eq_true. by destruct d.
Qed.

(** ** The primary channel: sentinel probing *)

Section Handoff.
Context `{Host}.

(** Resolving the prefix never fails and only adds events. *)
Lemma get_wine_prefix_total s :
  ∃ wp evs, get_wine_prefix s = (Ok wp, add_events evs s) ∧ runs evs = [].
Proof.
  unfold get_wine_prefix.
  destruct (environ !! "SV2_BOTTLE_NAME") as [name|];
    [destruct (truthy (Some name))|].
  - unfold bind, path_exists. rewrite emit_add_events.
    match goal with |- context [fs_exists ?f ?p] => destruct (fs_exists f p) end;
      eexists _, _; split; reflexivity.
  - exists (Path_of wineprefix_setting), []. by rewrite add_events_nil.
  - exists (Path_of wineprefix_setting), []. by rewrite add_events_nil.
Qed.

(** The loop walks past every candidate without sentinel. *)
Lemma for_user_in_none wp c users otherwise s :
  (∀ v, v ∈ users → fs_exists (fs s) (cv_file wp v) = false) →
  for_user_in wp c users otherwise s
  = otherwise (add_events (missed wp users) s).
Proof.
  revert s. induction users as [|v users IH]; intros s Hno; simpl.
  - by rewrite add_events_nil.
  - unfold bind at 1, path_exists.
    rewrite (Hno v) by (apply elem_of_cons; by left).
    rewrite emit_add_events.
    rewrite IH by (intros w Hw; apply Hno, elem_of_cons; by right).
    by rewrite add_events_app.
Qed.

(** The loop stops at the first candidate whose sentinel exists. *)
Lemma for_user_in_found wp c before u after otherwise s :
  (∀ v, v ∈ before → fs_exists (fs s) (cv_file wp v) = false) →
  fs_exists (fs s) (cv_file wp u) = true →
  writable (fs s) (cb_file wp u) = true →
  for_user_in wp c (before ++ u :: after) otherwise s
  = (Ok true,
     State (self s) (<[cb_file wp u := File (Text c)]> (fs s))
           (trace s ++ missed wp before
              ++ [EvExists (cv_file wp u) true;
                  EvWrite (cb_file wp u) (Text c)])
           (ticks s)).
Proof.
  revert s. induction before as [|v before IH]; intros s Hno Hu Hw; simpl.
  - unfold bind, path_exists, write_file, ret.
    rewrite Hu. autorewrite with st. rewrite Hw.
    unfold emit, set_fs; simpl. by rewrite <- app_assoc.
  - unfold bind at 1, path_exists.
    rewrite (Hno v) by (apply elem_of_cons; by left).
    rewrite IH; simpl; [|intros w Hw'; apply Hno, elem_of_cons; by right|done..].
    by rewrite <- !app_assoc.
Qed.

(** C4: when exactly one candidate guest identity [u] has its sentinel file,
    [_write_auth_code_to_cb_file] walks the candidates before [u], finds the
    sentinel of [u], writes the code unchanged as the whole content of the
    [cb] file next to it, probes no later candidate, changes no other file
    and returns [True].  The license directory of [u] is a directory (it
    holds the sentinel) and [cb] is not itself a directory, so that the file
    can be opened. *)
Theorem write_cb_single_sentinel (c u : string) (s s0 : state) (wp : Path) :
  get_wine_prefix s = (Ok wp, s0) →
  u ∈ possible_users →
  fs_exists (fs s) (cv_file wp u) = true →
  (∀ v, v ∈ possible_users → v ≠ u →
        fs_exists (fs s) (cv_file wp v) = false) →
  is_dir (fs s) (license_dir wp u) = true →
  is_dir (fs s) (cb_file wp u) = false →
  ∃ before after,
    possible_users = before ++ u :: after ∧ (u ∉ before) ∧
    _write_auth_code_to_cb_file c s
    = (Ok true,
       State (self s) (<[cb_file wp u := File (Text c)]> (fs s))
             (trace s0 ++ missed wp before
                ++ [EvExists (cv_file wp u) true;
                    EvWrite (cb_file wp u) (Text c)])
             (ticks s)).
Proof.
  intros Hwp Hin Hu Hothers Hdir Hcb.
  destruct (list_elem_of_split_l _ _ Hin) as (before & after & Heq & Hnotin).
  exists before, after. split; [done|]. split; [done|].
  destruct (get_wine_prefix_total s) as (wp' & evs & Hwp' & _).
  rewrite Hwp in Hwp'. injection Hwp' as -> ->.
  unfold _write_auth_code_to_cb_file, try_except, bind at 1.
  rewrite Hwp, Heq.
  rewrite (for_user_in_found wp' c before u after); simpl; try done.
  - intros v Hv. apply Hothers; [rewrite Heq, elem_of_app; by left|].
    by intros ->.
  - unfold cb_file in *. rewrite pjoin_cb in *. by apply writable_child.
Qed.

(** The fallback of [_write_auth_code_to_cb_file] when no candidate has a
    sentinel: only the license directory of [steamuser] is tried. *)
Lemma write_cb_no_sentinel (c : string) (s s0 : state) (wp : Path) :
  get_wine_prefix s = (Ok wp, s0) →
  (∀ v, v ∈ possible_users → fs_exists (fs s) (cv_file wp v) = false) →
  _write_auth_code_to_cb_file c s
  = let s1 := add_events (missed wp possible_users) s0 in
    let dir := license_dir wp "steamuser" in
    if fs_exists (fs s) dir then
      if writable (fs s) (cb_file wp "steamuser") then
        (Ok true,
         State (self s) (<[cb_file wp "steamuser" := File (Text c)]> (fs s))
               (trace s1 ++ [EvExists dir true;
                             EvWrite (cb_file wp "steamuser") (Text c)])
               (ticks s))
      else (Ok false, add_events [EvExists dir true] s1)
    else (Ok false, add_events [EvExists dir false] s1).
Proof.
  intros Hwp Hno.
  destruct (get_wine_prefix_total s) as (wp' & evs & Hwp' & _).
  rewrite Hwp in Hwp'. injection Hwp' as -> ->.
  unfold _write_auth_code_to_cb_file, try_except, bind at 1.
  rewrite Hwp. rewrite for_user_in_none by done.
  unfold bind, path_exists, write_file, ret; simpl.
  destruct (fs_exists (fs s) (license_dir wp' "steamuser")); simpl; [|done].
  destruct (writable (fs s) (cb_file wp' "steamuser")); simpl; [|done].
  unfold emit, set_fs, add_events; simpl. by rewrite <- !app_assoc.
Qed.

(** C3, amended: when no candidate guest identity has a sentinel file, the
    fallback looks at the license directory of the first candidate,
    [steamuser], and at no other.  If that directory exists and its [cb]
    file can be opened, the code becomes the content of that file and the
    function returns [True]; if it does not exist, nothing is written and
    the function returns [False], whichever other candidate directories
    exist. *)
Theorem write_cb_fallback_steamuser (c : string) (s s0 : state) (wp : Path) :
  get_wine_prefix s = (Ok wp, s0) →
  (∀ v, v ∈ possible_users → fs_exists (fs s) (cv_file wp v) = false) →
  (is_dir (fs s) (license_dir wp "steamuser") = true →
   is_dir (fs s) (cb_file wp "steamuser") = false →
   _write_auth_code_to_cb_file c s
   = (Ok true,
      State (self s) (<[cb_file wp "steamuser" := File (Text c)]> (fs s))
            (trace s0 ++ missed wp possible_users
               ++ [EvExists (license_dir wp "steamuser") true;
                   EvWrite (cb_file wp "steamuser") (Text c)])
            (ticks s)))
  ∧ (fs_exists (fs s) (license_dir wp "steamuser") = false →
     _write_auth_code_to_cb_file c s
     = (Ok false,
        add_events (missed wp possible_users
                      ++ [EvExists (license_dir wp "steamuser") false]) s0)).
Proof.
  intros Hwp Hno. rewrite (write_cb_no_sentinel c s s0 wp Hwp Hno). split.
  - intros Hdir Hcb. cbv zeta.
    rewrite (fs_exists_is_dir _ _ Hdir).
    unfold cb_file in *. rewrite pjoin_cb in *.
    rewrite (writable_child _ _ _ Hdir Hcb).
    by rewrite trace_add_events, <- app_assoc.
  - intros Hmissing. cbv zeta. rewrite Hmissing. by rewrite add_events_app.
Qed.

End Handoff.

(** ** Scenario A and the fallback of the primary channel *)

Section HandoffScenarios.
Import Scenario.

#[local] Existing Instance quiet_host.

Lemma scenario_possible_users :
  possible_users = ["steamuser"; "Public"; "alice"].
Proof. reflexivity. Qed.

(** The theorem [write_cb_single_sentinel] at Scenario A: the code [abc123]
    arrives while the sentinel exists only under [steamuser]. *)
Lemma write_cb_single_sentinel_scenario_A :
  let s := start fresh fs_steamuser_cv in
  fst (_write_auth_code_to_cb_file "abc123" s) = Ok true ∧
  fs (snd (_write_auth_code_to_cb_file "abc123" s))
    !! cb_file prefix "steamuser" = Some (File (Text "abc123")).
Proof.
  intros s.
  destruct (write_cb_single_sentinel "abc123" "steamuser" s s prefix)
    as (before & after & _ & _ & ->).
  - reflexivity.
  - apply elem_of_cons. by left.
  - vm_compute. reflexivity.
  - intros v Hv Hne. rewrite scenario_possible_users in Hv.
    apply elem_of_cons in Hv as [->|Hv]; [done|].
    apply elem_of_cons in Hv as [->|Hv]; [vm_compute; reflexivity|].
    apply elem_of_cons in Hv as [->|Hv]; [vm_compute; reflexivity|].
    by apply elem_of_nil in Hv.
  - vm_compute. reflexivity.
  - vm_compute. reflexivity.
  - split; [reflexivity|]. simpl. apply lookup_insert_eq.
Defined.

(** The theorem [write_cb_fallback_steamuser] where the license directory of
    [steamuser] exists without sentinel. *)
Lemma write_cb_fallback_steamuser_scenario :
  let s := start fresh fs_steamuser_dir in
  fst (_write_auth_code_to_cb_file "abc123" s) = Ok true ∧
  fs (snd (_write_auth_code_to_cb_file "abc123" s))
    !! cb_file prefix "steamuser" = Some (File (Text "abc123")).
Proof.
  intros s.
  destruct (write_cb_fallback_steamuser "abc123" s s prefix) as [Hyes _].
  - reflexivity.
  - intros v Hv. rewrite scenario_possible_users in Hv.
    apply elem_of_cons in Hv as [->|Hv]; [vm_compute; reflexivity|].
    apply elem_of_cons in Hv as [->|Hv]; [vm_compute; reflexivity|].
    apply elem_of_cons in Hv as [->|Hv]; [vm_compute; reflexivity|].
    by apply elem_of_nil in Hv.
  - rewrite Hyes; [|vm_compute; reflexivity..].
    split; [reflexivity|]. simpl. apply lookup_insert_eq.
Defined.

(** C3, as stated, fails: with no sentinel anywhere and the license
    directory of [Public] as the only existing candidate directory, the
    specification's target is the [cb] file of [Public], but the code
    writes nothing and returns [False]. *)
Lemma fallback_ignores_other_candidates :
  let s := start fresh fs_public_only in
  Forall (λ u, fs_exists (fs s) (cv_file prefix u) = false) possible_users ∧
  is_dir (fs s) (license_dir prefix "Public") = true ∧
  spec_handoff_target (fs s) prefix possible_users
    = Some (cb_file prefix "Public") ∧
  fst (_write_auth_code_to_cb_file "abc123" s) = Ok false ∧
  fs (snd (_write_auth_code_to_cb_file "abc123" s)) = fs s ∧
  fs (snd (_write_auth_code_to_cb_file "abc123" s))
    !! cb_file prefix "Public" = None.
Proof.
  intros s.
  assert (Forall (λ u, fs_exists (fs s) (cv_file prefix u) = false)
                 possible_users) as Hno.
  { rewrite scenario_possible_users.
    repeat (apply Forall_cons; split; [vm_compute; reflexivity|]).
    apply Forall_nil_2. }
  split; [done|].
  split; [vm_compute; reflexivity|].
  split; [vm_compute; reflexivity|].
  rewrite (write_cb_no_sentinel "abc123" s s prefix);
    [|reflexivity|by apply Forall_forall].
  cbv zeta.
  assert (fs_exists (fs s) (license_dir prefix "steamuser") = false) as ->
    by (vm_compute; reflexivity).
  split; [reflexivity|]. split; [reflexivity|].
  vm_compute. reflexivity.
Qed.

End HandoffScenarios.

(** ** What the handoff writer leaves untouched *)

Section Frame.
Context `{Host}.

Lemma keeps_self_ret {A} (a : A) : keeps_self (ret a).
Proof. by intros s. Qed.

Lemma keeps_self_raise {A} e : keeps_self (@raise A e).
Proof. by intros s. Qed.

Lemma keeps_self_bind {A B} (m : M A) (k : A → M B) :
  keeps_self m → (∀ a, keeps_self (k a)) → keeps_self (bind m k).
Proof.
  intros Hm Hk s. unfold bind. specialize (Hm s).
  destruct (m s) as [[a|e] s1]; simpl in *; [|done].
  by rewrite Hk.
Qed.

Lemma keeps_self_try_except {A} (body : M A) handler :
  keeps_self body → (∀ e, keeps_self (handler e)) →
  keeps_self (try_except body handler).
Proof.
  intros Hm Hk s. unfold try_except. specialize (Hm s).
  destruct (body s) as [[a|e] s1]; simpl in *; [done|].
  by rewrite Hk.
Qed.

Lemma keeps_self_path_exists p : keeps_self (path_exists p).
Proof. by intros s. Qed.

Lemma keeps_self_write_file p d : keeps_self (write_file p d).
Proof. intros s. unfold write_file. by destruct (writable _ _). Qed.

Lemma keeps_self_mkdir p : keeps_self (mkdir p).
Proof. intros s. unfold mkdir. by destruct (mkdir_parents _ _). Qed.

Lemma keeps_self_unlink p : keeps_self (unlink p).
Proof. intros s. unfold unlink. by destruct (fs s !! p) as [[]|]. Qed.

Lemma keeps_self_subprocess_run inv : keeps_self (subprocess_run inv).
Proof.
  intros s. unfold subprocess_run.
  by destruct (subprocess inv (fs s)) as [[] ?].
Qed.

Lemma keeps_self_time : keeps_self get_event_loop_time.
Proof. by intros s. Qed.

Lemma keeps_self_get_wine_prefix : keeps_self get_wine_prefix.
Proof.
  intros s. destruct (get_wine_prefix_total s) as (wp & evs & -> & _).
  reflexivity.
Qed.

Ltac keeps :=
  repeat first
    [ apply keeps_self_ret | apply keeps_self_raise
    | apply keeps_self_path_exists | apply keeps_self_write_file
    | apply keeps_self_mkdir | apply keeps_self_unlink
    | apply keeps_self_subprocess_run | apply keeps_self_time
    | apply keeps_self_get_wine_prefix
    | apply keeps_self_bind; [|intros ?]
    | apply keeps_self_try_except; [|intros ?]
    | match goal with
      | |- keeps_self (if ?b then _ else _) => destruct b
      end
    | progress cbv zeta
    | assumption
    | (intros ?; reflexivity) ].

Lemma keeps_self_for_user_in wp c users otherwise :
  keeps_self otherwise → keeps_self (for_user_in wp c users otherwise).
Proof. intros Ho. induction users as [|u users IH]; simpl; keeps. Qed.

Lemma keeps_self_write_cb c : keeps_self (_write_auth_code_to_cb_file c).
Proof.
  unfold _write_auth_code_to_cb_file. keeps.
  all: apply keeps_self_for_user_in; keeps.
Qed.

Lemma keeps_self_for_reg_value bottle values flag :
  keeps_self (for_reg_value bottle values flag).
Proof.
  revert flag. induction values as [|[name data] values IH]; intros flag;
    simpl; keeps; apply IH.
Qed.

Lemma keeps_self_inject_registry params :
  keeps_self (_inject_registry_payload params).
Proof.
  unfold _inject_registry_payload. keeps.
  all: apply keeps_self_for_reg_value.
Qed.

Lemma keeps_self_store params : keeps_self (_store_auth_payload params).
Proof.
  unfold _store_auth_payload.
  pose proof (keeps_self_inject_registry params).
  pose proof keeps_self_write_cb.
  keeps.
Qed.

Lemma never_raises_try_except {A} (body : M A) handler :
  (∀ e, never_raises (handler e)) → never_raises (try_except body handler).
Proof.
  intros Hh s. unfold try_except.
  destruct (body s) as [[a|e] s1]; [by exists a|apply Hh].
Qed.

Lemma never_raises_ret {A} (a : A) : never_raises (ret a).
Proof. intros s. by exists a. Qed.

(** [_store_auth_payload] and [_write_auth_code_to_cb_file] catch every
    exception: they always return a boolean. *)
Lemma never_raises_store params : never_raises (_store_auth_payload params).
Proof. apply never_raises_try_except. intros _. apply never_raises_ret. Qed.

Lemma never_raises_write_cb c : never_raises (_write_auth_code_to_cb_file c).
Proof. apply never_raises_try_except. intros _. apply never_raises_ret. Qed.

Lemma never_raises_inject_registry params :
  never_raises (_inject_registry_payload params).
Proof. apply never_raises_try_except. intros _. apply never_raises_ret. Qed.

(** The result of [_store_auth_payload] is decided by the diagnostic payload
    alone: once the payload file is written the function returns [True],
    whatever [_write_auth_code_to_cb_file] returned. *)
Lemma store_returns_true_once_payload_written params s wp s0 f1 :
  get_wine_prefix s = (Ok wp, s0) →
  mkdir_parents (fs s)
    (parent (wp </> "drive_c" </> "users" </> "Public"
                </> "sv2_auth_token.json")) = Some f1 →
  writable f1 (wp </> "drive_c" </> "users" </> "Public"
                  </> "sv2_auth_token.json") = true →
  fst (_store_auth_payload params s) = Ok true.
Proof.
  intros Hwp Hmk Hw.
  destruct (get_wine_prefix_total s) as (wp' & evs & Hwp' & _).
  rewrite Hwp in Hwp'. injection Hwp' as -> ->.
  unfold _store_auth_payload, try_except. unfold bind at 1. rewrite Hwp.
  unfold bind at 1. unfold bind at 1, get_event_loop_time.
  unfold bind at 1, mkdir. simpl fs. rewrite Hmk.
  unfold bind at 1, write_file. simpl fs. rewrite Hw.
  unfold bind at 1.
  match goal with |- context [_inject_registry_payload params ?s1] =>
    destruct (never_raises_inject_registry params s1) as [b Hb];
    destruct (_inject_registry_payload params s1) as [[b'|e] s2];
    [|discriminate Hb]
  end.
  unfold bind at 1.
  destruct (truthy (params !! "code")); [|done].
  unfold bind at 1.
  destruct (never_raises_write_cb (default EmptyString (params !! "code")) s2)
    as [c Hc].
  destruct (_write_auth_code_to_cb_file _ s2) as [[c'|e] s3];
    [done|discriminate Hc].
Qed.

End Frame.

(** ** The capture endpoint *)

Section Capture.
Context `{Host}.

(** The class defines no [_inject_auth_token]. *)
Lemma inject_auth_token_undefined s :
  call_inject_auth_token s = (Raise (AttributeError "_inject_auth_token"), s).
Proof. reflexivity. Qed.

(** C2, amended: for every parameter map with neither a code nor an access
    token the handler answers the invalid-request response (status 400) and
    leaves the stored token, the stored user info, the file system and the
    event trace as they were; the last-capture record
    [last_auth_params] is overwritten with the inbound parameters, since it
    is assigned before the parameters are looked at. *)
Theorem invalid_callback_records_params (params : gmap string string)
    (s : state) :
  dict_has params "code" = false →
  truthy (py_or (params !! "access_token") (params !! "token")) = false →
  auth_callback_handler params s
  = (Ok (Response 400
           (JsonMessage "error"
              "Invalid authentication callback - no code or token")),
     set_self (Server (port (self s)) (auth_token (self s))
                      (user_info (self s)) (Some params)
                      (redirect_uri_used (self s))) s).
Proof.
  intros Hcode Htoken. unfold auth_callback_handler, bind at 1.
  unfold set_last_auth_params. by rewrite Hcode, Htoken.
Qed.

(** C9: for every callback that carries an access token and no code, the
    handler stores the token and the user info and then raises
    [AttributeError] at the call of [_inject_auth_token], which the class
    does not define: no response is produced.  Nothing on the path touches
    the file system: no event is added, so no sentinel is probed. *)
Theorem token_callback_raises (params : gmap string string) (s : state) :
  dict_has params "code" = false →
  truthy (py_or (params !! "access_token") (params !! "token")) = true →
  auth_callback_handler params s
  = (Raise (AttributeError "_inject_auth_token"),
     set_self
       (Server (port (self s)) (py_or (params !! "access_token") (params !! "token"))
          (Some (UserInfo
             (py_or_str (py_or (params !! "user_id") (params !! "uid"))
                        EmptyString)
             (py_or_str (py_or (params !! "username") (params !! "user"))
                        EmptyString)
             (py_or_str (params !! "email") EmptyString)))
          (Some params) (redirect_uri_used (self s))) s)
  ∧ events_of (auth_callback_handler params) s = []
  ∧ fs (snd (auth_callback_handler params s)) = fs s.
Proof.
  intros Hcode Htoken.
  assert (auth_callback_handler params s
          = (Raise (AttributeError "_inject_auth_token"),
             set_self
               (Server (port (self s)) (py_or (params !! "access_token") (params !! "token"))
                  (Some (UserInfo
                     (py_or_str (py_or (params !! "user_id") (params !! "uid"))
                                EmptyString)
                     (py_or_str
                        (py_or (params !! "username") (params !! "user"))
                        EmptyString)
                     (py_or_str (params !! "email") EmptyString)))
                  (Some params) (redirect_uri_used (self s))) s)) as Hrun.
  { unfold auth_callback_handler, bind at 1.
    unfold set_last_auth_params. by rewrite Hcode, Htoken. }
  split; [done|]. unfold events_of. rewrite Hrun. simpl.
  split; [apply drop_all|done].
Qed.

(** The injection endpoint fails in the same way once a token is stored. *)
Lemma inject_handler_raises (s : state) :
  truthy (auth_token (self s)) = true →
  auth_inject_handler s = (Raise (AttributeError "_inject_auth_token"), s).
Proof.
  intros Htoken. unfold auth_inject_handler, bind, get_self.
  by rewrite Htoken.
Qed.

(** C10: when the parameters contain both a code and an access token, the
    handler takes the code path only: its answer is one of the two answers
    of that path (never the answer or the exception of the access-token
    branch), and the stored token and user info are the ones from before
    the request. *)
Theorem code_takes_precedence (params : gmap string string) (s : state) :
  dict_has params "code" = true →
  is_Some (params !! "access_token") →
  let r := auth_callback_handler params s in
  (fst r = Ok (Response 200 ForwardedPage)
   ∨ fst r = Ok (Response 500 ForwardFailedPage))
  ∧ auth_token (self (snd r)) = auth_token (self s)
  ∧ user_info (self (snd r)) = user_info (self s).
Proof.
  intros Hcode _ r. subst r.
  unfold auth_callback_handler, bind at 1. unfold set_last_auth_params.
  rewrite Hcode. unfold bind.
  match goal with
  | |- context [_store_auth_payload params ?s1] =>
      pose proof (keeps_self_store params s1) as Hself;
      destruct (never_raises_store params s1) as [b Hb];
      destruct (_store_auth_payload params s1) as [[b'|e] s2]
  end; simpl in *; [|done].
  destruct b'; simpl; rewrite Hself; simpl; split; auto.
Qed.

End Capture.

Section CaptureScenarios.
Import Scenario.
#[local] Existing Instance quiet_host.

(** The theorem [invalid_callback_records_params] at a request that only
    carries a [state]. *)
Lemma invalid_callback_scenario :
  let s := start seen_code fs_bare in
  let r := auth_callback_handler {[ "state" := "xyz" ]} s in
  status <$> fst_ok r = Some 400 ∧
  auth_token (self (snd r)) = auth_token (self s) ∧
  user_info (self (snd r)) = user_info (self s) ∧
  fs (snd r) = fs s.
Proof.
  intros s r. subst r.
  rewrite (invalid_callback_records_params {[ "state" := "xyz" ]} s);
    [|vm_compute; reflexivity..].
  repeat split.
Defined.

(** C2, as stated, fails: a request without code and without token
    overwrites the last-capture record, and the status query answers
    differently afterwards. *)
Lemma invalid_callback_changes_status :
  let s := start seen_code fs_bare in
  let params : gmap string string := {[ "state" := "xyz" ]} in
  let r := auth_callback_handler params s in
  dict_has params "code" = false ∧
  truthy (py_or (params !! "access_token") (params !! "token")) = false ∧
  status <$> fst_ok r = Some 400 ∧
  has_auth_code (self s) = true ∧
  has_auth_code (self (snd r)) = false ∧
  status_of (self (snd r)) ≠ status_of (self s).
Proof.
  intros s params r.
  split; [|split; [|split; [|split; [|split]]]];
    try (vm_compute; reflexivity).
  vm_compute. discriminate.
Qed.

(** The theorem [token_callback_raises] at a request with a direct token. *)
Lemma token_callback_scenario :
  let s := start fresh fs_steamuser_cv in
  let params : gmap string string :=
    <[ "username" := "alice" ]> {[ "access_token" := "tok" ]} in
  let r := auth_callback_handler params s in
  fst r = Raise (AttributeError "_inject_auth_token") ∧
  auth_token (self (snd r)) = Some "tok" ∧
  user_info (self (snd r)) = Some (UserInfo EmptyString "alice" EmptyString) ∧
  trace (snd r) = [].
Proof.
  intros s params r. subst r.
  destruct (token_callback_raises params s) as (-> & _ & _);
    [vm_compute; reflexivity..|].
  repeat split.
Defined.

(** The theorem [code_takes_precedence] at a request with a code and a
    token. *)
Lemma code_takes_precedence_scenario :
  let s := start fresh fs_steamuser_cv in
  let params : gmap string string :=
    <[ "code" := "abc123" ]> {[ "access_token" := "tok" ]} in
  let r := auth_callback_handler params s in
  auth_token (self (snd r)) = None ∧ user_info (self (snd r)) = None.
Proof.
  intros s params r. subst r.
  destruct (code_takes_precedence params s) as (_ & -> & ->).
  - vm_compute. reflexivity.
  - exists "tok". vm_compute. reflexivity.
  - split; reflexivity.
Defined.

(** C1 on a host where no candidate license directory exists: the inner
    [_write_auth_code_to_cb_file] returns [False] and no [cb] file comes
    into being, yet [_store_auth_payload] returns [True] and the handler
    answers with the success page. *)
Theorem store_reports_success_without_target :
  let s := start fresh fs_bare in
  let params : gmap string string := {[ "code" := "abc123" ]} in
  let r := _store_auth_payload params s in
  Forall (λ u, fs_exists (fs s) (license_dir prefix u) = false)
         possible_users ∧
  fst (_write_auth_code_to_cb_file "abc123" s) = Ok false ∧
  fst r = Ok true ∧
  Forall (λ u, fs (snd r) !! cb_file prefix u = None) possible_users ∧
  filter (λ p, last p = Some "cb") (map fst (map_to_list (fs (snd r)))) = [] ∧
  fst (auth_callback_handler params s) = Ok (Response 200 ForwardedPage).
Proof.
  intros s params r.
  assert (possible_users = ["steamuser"; "Public"; "alice"]) as ->
    by reflexivity.
  split.
  { repeat (apply Forall_cons; split; [vm_compute; reflexivity|]).
    apply Forall_nil_2. }
  split; [vm_compute; reflexivity|].
  split; [vm_compute; reflexivity|].
  split.
  { repeat (apply Forall_cons; split; [vm_compute; reflexivity|]).
    apply Forall_nil_2. }
  split; vm_compute; reflexivity.
Qed.

End CaptureScenarios.

(** ** Path translation *)

Lemma relative_to_Some (p base rel : Path) :
  relative_to p base = Some rel → p = base ++ rel.
Proof.
  revert p. induction base as [|b base IH]; intros p; simpl.
  - by intros [= ->].
  - destruct p as [|c p]; [done|].
    destruct (String.eqb b c) eqn:E; [|done].
    apply String.eqb_eq in E as ->. intros Hrel. by rewrite (IH _ Hrel).
Qed.

Lemma relative_to_app (base rel : Path) :
  relative_to (base ++ rel) base = Some rel.
Proof.
  induction base as [|b base IH]; simpl; [done|].
  by rewrite String.eqb_refl.
Qed.

Lemma split_on_plain sep x : has_char sep x = false → split_on sep x = [x].
Proof.
  induction x as [|c x IH]; simpl; [done|].
  intros [Hc Hx]%orb_false_elim. rewrite Hc. by rewrite IH.
Qed.

Lemma split_on_append sep x rest :
  has_char sep x = false →
  split_on sep (x +:+ String sep rest) = x :: split_on sep rest.
Proof.
  induction x as [|c x IH]; simpl.
  - intros _. by rewrite Ascii.eqb_refl.
  - intros [Hc Hx]%orb_false_elim. rewrite Hc. by rewrite IH.
Qed.

(** Splitting a joined list gives the list back when no component contains
    the separator. *)
Lemma split_on_join sep (parts : list string) :
  parts ≠ [] →
  Forall (λ c, has_char sep c = false) parts →
  split_on sep (join (String sep EmptyString) parts) = parts.
Proof.
  induction parts as [|x parts IH]; [done|]. intros _ Hall.
  apply Forall_cons in Hall as [Hx Hparts].
  destruct parts as [|y parts].
  - simpl. by apply split_on_plain.
  - change (join (String sep EmptyString) (x :: y :: parts))
      with (x +:+ String sep (join (String sep EmptyString) (y :: parts))).
    rewrite split_on_append by done. by rewrite IH.
Qed.

Lemma filter_plain_components (rel : list string) :
  Forall plain_component rel → filter (λ c, c ≠ EmptyString) rel = rel.
Proof.
  induction rel as [|c rel IH]; [done|].
  intros [[Hc _] Hrel]%Forall_cons.
  rewrite filter_cons_True by done. by rewrite IH.
Qed.

Section Translation.
Context `{Host}.

(** The translation of an entry of the drive. *)
Lemma to_windows_path_inside unix_path wine_prefix rel :
  relative_to (resolve unix_path) (drive_root wine_prefix) = Some rel →
  _to_windows_path unix_path wine_prefix = "C:\" +:+ join "\" rel.
Proof.
  intros Hrel. unfold _to_windows_path. fold (drive_root wine_prefix).
  by rewrite Hrel.
Qed.

(** C5, amended: [_to_windows_path] is a function of its arguments (and of
    the host's link resolution): it is outside the state monad, so calling
    it changes nothing.  For every host path whose resolved form lies in
    the drive root and whose components below the root are not empty and
    contain no backslash, reverse-mapping the translation under the same
    root gives the resolved path back; for every host path whose resolved
    form is outside the drive root the output is the path's own string. *)
Theorem to_windows_path_partial_inverse (unix_path : Path)
    (wine_prefix : string) :
  (∀ rel,
     relative_to (resolve unix_path) (drive_root wine_prefix) = Some rel →
     Forall plain_component rel →
     spec_reverse_map (drive_root wine_prefix)
                      (_to_windows_path unix_path wine_prefix)
     = resolve unix_path)
  ∧ (relative_to (resolve unix_path) (drive_root wine_prefix) = None →
     _to_windows_path unix_path wine_prefix = str_of_path unix_path).
Proof.
  split.
  - intros rel Hrel Hplain.
    rewrite (to_windows_path_inside _ _ _ Hrel).
    rewrite (relative_to_Some _ _ _ Hrel).
    unfold spec_reverse_map. f_equal.
    change (str_drop 3 ("C:\" +:+ join "\" rel)) with (join "\" rel).
    destruct rel as [|c rel]; [done|].
    change "\" with (String backslash EmptyString).
    rewrite split_on_join; [by apply filter_plain_components|done|].
    eapply Forall_impl; [exact Hplain|]. by intros ? [_ ?].
  - intros Hout. unfold _to_windows_path. fold (drive_root wine_prefix).
    by rewrite Hout.
Qed.

End Translation.

Section TranslationScenarios.
Import Scenario.
#[local] Existing Instance quiet_host.

(** The theorem [to_windows_path_partial_inverse] at an installed
    executable and at a path outside the prefix. *)
Lemma to_windows_path_scenario :
  let exe := prefix ++ ["drive_c"; "svstudio2_app"; "synthv-studio.exe"] in
  _to_windows_path exe "/home/alice/.wine-sv2"
    = "C:\svstudio2_app\synthv-studio.exe" ∧
  spec_reverse_map (drive_root "/home/alice/.wine-sv2")
    (_to_windows_path exe "/home/alice/.wine-sv2") = exe ∧
  _to_windows_path ["usr"; "bin"; "wine"] "/home/alice/.wine-sv2"
    = "/usr/bin/wine".
Proof.
  intros exe.
  destruct (to_windows_path_partial_inverse exe "/home/alice/.wine-sv2")
    as [Hin _].
  destruct (to_windows_path_partial_inverse ["usr"; "bin"; "wine"]
              "/home/alice/.wine-sv2") as [_ Hout].
  split; [reflexivity|]. split.
  - apply (Hin ["svstudio2_app"; "synthv-studio.exe"]); [reflexivity|].
    repeat (apply Forall_cons; split; [by split|]). apply Forall_nil_2.
  - apply Hout. reflexivity.
Defined.

(** C5, as stated, fails: a file whose name contains a backslash and a file
    in a subdirectory are both entries of the drive root and have the same
    translation, so no reverse mapping recovers every such path. *)
Lemma to_windows_path_not_injective :
  let wp := "/home/alice/.wine-sv2" in
  relative_to (resolve odd_name) (drive_root wp) = Some ["a\b"] ∧
  relative_to (resolve nested) (drive_root wp) = Some ["a"; "b"] ∧
  _to_windows_path odd_name wp = _to_windows_path nested wp ∧
  spec_reverse_map (drive_root wp) (_to_windows_path odd_name wp) ≠ odd_name ∧
  ¬ ∃ reverse : string → Path,
      ∀ p, is_Some (relative_to (resolve p) (drive_root wp)) →
           reverse (_to_windows_path p wp) = p.
Proof.
  intros wp.
  assert (_to_windows_path odd_name wp = _to_windows_path nested wp) as Hsame
    by reflexivity.
  split; [reflexivity|]. split; [reflexivity|]. split; [done|]. split.
  - vm_compute. discriminate.
  - intros [reverse Hrev].
    assert (odd_name = nested) as Heq.
    { rewrite <- (Hrev odd_name) by (by eexists).
      rewrite Hsame. apply Hrev. by eexists. }
    vm_compute in Heq. discriminate.
Qed.

End TranslationScenarios.

(** ** The delivery fallback chain *)

Section ChainRuns.
Context `{Host}.

(** One guarded call: the [try] block of a method. *)
Lemma attempt_run inv (ok : completed → bool) s :
  try_except (let* result := subprocess_run inv in ret (ok result))
             (λ _, ret false) s
  = (Ok (passes ok (subprocess inv (fs s)).1),
     emit (EvRun inv (subprocess inv (fs s)).1)
          (set_fs (subprocess inv (fs s)).2 s)).
Proof.
  unfold try_except, bind, subprocess_run, ret.
  by destruct (subprocess inv (fs s)) as [[rc so se| |] f].
Qed.

Lemma for_candidate_in_total candidates otherwise :
  (∀ s, ∃ r evs, otherwise s = (Ok r, add_events evs s) ∧ runs evs = []) →
  ∀ s, ∃ r evs,
    for_candidate_in candidates otherwise s = (Ok r, add_events evs s)
    ∧ runs evs = [].
Proof.
  intros Ho. induction candidates as [|c candidates IH]; intros s; simpl.
  - apply Ho.
  - unfold bind, path_exists. rewrite emit_add_events.
    destruct (fs_exists (fs s) c).
    + by exists (Some c), [EvExists c true].
    + destruct (IH (add_events [EvExists c false] s)) as (r & evs & -> & Hr).
      exists r, ([EvExists c false] ++ evs).
      by rewrite add_events_app.
Qed.

(** Looking for the executable never fails and calls no program. *)
Lemma find_sv2_executable_total wine_prefix s :
  ∃ r evs, _find_sv2_executable wine_prefix s = (Ok r, add_events evs s)
           ∧ runs evs = [].
Proof.
  unfold _find_sv2_executable. apply for_candidate_in_total.
  intros s'. unfold try_except, rglob_first. rewrite emit_add_events.
  by eexists _, _.
Qed.

Lemma after_start s : s = after s (fs s) [].
Proof. destruct s. unfold after. simpl. by rewrite app_nil_r. Qed.

Lemma emit_after e s f evs : emit e (after s f evs) = after s f (evs ++ [e]).
Proof. unfold emit, after. simpl. by rewrite app_assoc. Qed.

Lemma add_events_after evs' s f evs :
  add_events evs' (after s f evs) = after s f (evs ++ evs').
Proof. unfold add_events, after. simpl. by rewrite app_assoc. Qed.

Lemma set_fs_after f' s f evs : set_fs f' (after s f evs) = after s f' evs.
Proof. reflexivity. Qed.

Lemma fs_after s f evs : fs (after s f evs) = f.
Proof. reflexivity. Qed.

(** The calls of a run, read off its final state. *)
Lemma runs_of_after {A} (m : M A) s r f evs :
  m s = (r, after s f evs) → runs (events_of m s) = runs evs.
Proof.
  intros Hm. unfold events_of. rewrite Hm. simpl.
  by rewrite drop_app_length.
Qed.

Lemma attempt_after inv (ok : completed → bool) s f evs :
  try_except (let* result := subprocess_run inv in ret (ok result))
             (λ _, ret false) (after s f evs)
  = (Ok (passes ok (subprocess inv f).1),
     after s (subprocess inv f).2 (evs ++ [EvRun inv (subprocess inv f).1])).
Proof. by rewrite attempt_run, fs_after, set_fs_after, emit_after. Qed.

Lemma write_file_after p d s f evs :
  write_file p d (after s f evs)
  = if writable f p
    then (Ok (), after s (<[p := File d]> f) (evs ++ [EvWrite p d]))
    else (Raise OSError, after s f evs).
Proof.
  unfold write_file. rewrite fs_after. destruct (writable f p); [|done].
  by rewrite set_fs_after, emit_after.
Qed.

Lemma get_wine_prefix_after s f evs :
  ∃ wp evs', get_wine_prefix (after s f evs) = (Ok wp, after s f (evs ++ evs'))
             ∧ runs evs' = [].
Proof.
  destruct (get_wine_prefix_total (after s f evs)) as (wp & evs' & -> & Hr).
  exists wp, evs'. by rewrite add_events_after.
Qed.

Lemma find_sv2_executable_after wine_prefix s f evs :
  ∃ r evs', _find_sv2_executable wine_prefix (after s f evs)
            = (Ok r, after s f (evs ++ evs')) ∧ runs evs' = [].
Proof.
  destruct (find_sv2_executable_total wine_prefix (after s f evs))
    as (r & evs' & -> & Hr).
  exists r, evs'. by rewrite add_events_after.
Qed.

Lemma forward_via_bottles_shapes_from uri bottle s f0 :
  ∃ out0 out1 out2 out3 exe res f evs,
    let c0 := (shell_invocation bottle uri, out0) in
    let c1 := (cmd_invocation bottle, out1) in
    let c2 := (rundll32_invocation bottle uri, out2) in
    let c3 := (direct_invocation bottle exe uri, out3) in
    forward_via_bottles uri bottle (after s f0 []) = (res, after s f evs) ∧
    ((passes shell_ok out0 = true ∧ res = Ok true ∧ runs evs = [c0])
     ∨ (passes shell_ok out0 = false ∧ res = Raise OSError ∧ runs evs = [c0])
     ∨ (passes shell_ok out0 = false ∧ passes cmd_ok out1 = true
        ∧ res = Ok true ∧ runs evs = [c0; c1])
     ∨ (passes shell_ok out0 = false ∧ passes cmd_ok out1 = false
        ∧ passes rundll32_ok out2 = true
        ∧ res = Ok true ∧ runs evs = [c0; c1; c2])
     ∨ (passes shell_ok out0 = false ∧ passes cmd_ok out1 = false
        ∧ passes rundll32_ok out2 = false
        ∧ res = Ok (passes exit_ok out3) ∧ runs evs = [c0; c1; c2; c3])).
Proof.
  unfold forward_via_bottles.
  unfold bind at 1. rewrite attempt_after. simpl app.
  set (o0 := subprocess (shell_invocation bottle uri) f0).
  destruct (passes shell_ok o0.1) eqn:E0.
  { exists o0.1, TimedOut, TimedOut, TimedOut, EmptyString.
    eexists _, _, _. split; [reflexivity|]. left. done. }
  unfold bind at 1.
  destruct (get_wine_prefix_after s o0.2 [EvRun (shell_invocation bottle uri) o0.1])
    as (wp & evs1 & -> & Hevs1).
  unfold bind at 1. rewrite write_file_after.
  destruct (writable _ _).
  2:{ exists o0.1, TimedOut, TimedOut, TimedOut, EmptyString.
      eexists _, _, _. split; [reflexivity|]. right; left.
      rewrite runs_app, Hevs1. done. }
  unfold bind at 1. rewrite write_file_after.
  destruct (writable _ _).
  2:{ exists o0.1, TimedOut, TimedOut, TimedOut, EmptyString.
      eexists _, _, _. split; [reflexivity|]. right; left.
      rewrite !runs_app, Hevs1. done. }
  unfold bind at 1. rewrite attempt_after.
  match goal with |- context [subprocess (cmd_invocation bottle) ?f] =>
    set (o1 := subprocess (cmd_invocation bottle) f) end.
  destruct (passes cmd_ok o1.1) eqn:E1.
  { exists o0.1, o1.1, TimedOut, TimedOut, EmptyString.
    eexists _, _, _. split; [reflexivity|]. right; right; left.
    rewrite !runs_app, Hevs1. done. }
  unfold bind at 1. rewrite attempt_after.
  set (o2 := subprocess (rundll32_invocation bottle uri) o1.2).
  destruct (passes rundll32_ok o2.1) eqn:E2.
  { exists o0.1, o1.1, o2.1, TimedOut, EmptyString.
    eexists _, _, _. split; [reflexivity|]. right; right; right; left.
    rewrite !runs_app, Hevs1. done. }
  unfold bind at 1.
  match goal with |- context [_find_sv2_executable ?w (after s ?f ?evs)] =>
    destruct (find_sv2_executable_after w s f evs) as (exe & evs2 & -> & Hevs2)
  end.
  rewrite attempt_after.
  match goal with |- context [subprocess (direct_invocation bottle ?e uri) ?f] =>
    set (o3 := subprocess (direct_invocation bottle e uri) f);
    exists o0.1, o1.1, o2.1, o3.1, e
  end.
  eexists _, _, _. split; [reflexivity|]. right; right; right; right.
  rewrite !runs_app, Hevs1, Hevs2. done.
Qed.

(** Every run of the Managed chain has one of five shapes. *)
Lemma forward_via_bottles_shapes uri bottle s :
  ∃ out0 out1 out2 out3 exe res f evs,
    let c0 := (shell_invocation bottle uri, out0) in
    let c1 := (cmd_invocation bottle, out1) in
    let c2 := (rundll32_invocation bottle uri, out2) in
    let c3 := (direct_invocation bottle exe uri, out3) in
    forward_via_bottles uri bottle s = (res, after s f evs) ∧
    ((passes shell_ok out0 = true ∧ res = Ok true ∧ runs evs = [c0])
     ∨ (passes shell_ok out0 = false ∧ res = Raise OSError ∧ runs evs = [c0])
     ∨ (passes shell_ok out0 = false ∧ passes cmd_ok out1 = true
        ∧ res = Ok true ∧ runs evs = [c0; c1])
     ∨ (passes shell_ok out0 = false ∧ passes cmd_ok out1 = false
        ∧ passes rundll32_ok out2 = true
        ∧ res = Ok true ∧ runs evs = [c0; c1; c2])
     ∨ (passes shell_ok out0 = false ∧ passes cmd_ok out1 = false
        ∧ passes rundll32_ok out2 = false
        ∧ res = Ok (passes exit_ok out3) ∧ runs evs = [c0; c1; c2; c3])).
Proof.
  pose proof (forward_via_bottles_shapes_from uri bottle s (fs s)) as Hfrom.
  by rewrite <- after_start in Hfrom.
Qed.

Lemma forward_via_wine_shapes_from uri s f :
  ∃ out0 out1 res f' evs,
    let c0 := (wine_start_invocation wineprefix_setting uri, out0) in
    let c1 := (wine_rundll32_invocation wineprefix_setting uri, out1) in
    forward_via_wine uri (after s f []) = (res, after s f' evs) ∧
    match out0 with
    | Completed rc so se =>
        if (rc =? 0)%Z then res = Ok true ∧ runs evs = [c0]
        else res = Ok (passes exit_ok out1) ∧ runs evs = [c0; c1]
    | TimedOut | SpawnError => res = Ok false ∧ runs evs = [c0]
    end.
Proof.
  unfold forward_via_wine, try_except, bind, subprocess_run, ret.
  rewrite fs_after.
  set (i0 := wine_start_invocation wineprefix_setting uri).
  set (i1 := wine_rundll32_invocation wineprefix_setting uri).
  destruct (subprocess i0 f) as [out0 f0] eqn:E0.
  rewrite set_fs_after, emit_after. simpl app.
  destruct out0 as [rc so se| |].
  - unfold exit_ok at 1. cbn [returncode].
    destruct (rc =? 0)%Z eqn:Erc.
    + exists (Completed rc so se), TimedOut. eexists _, _, _.
      split; [reflexivity|]. by rewrite Erc.
    + rewrite fs_after.
      destruct (subprocess i1 f0) as [out1 f1] eqn:E1.
      rewrite set_fs_after, emit_after. simpl app.
      exists (Completed rc so se), out1.
      destruct out1 as [rc1 so1 se1| |]; eexists _, _, _;
        (split; [reflexivity|]); by rewrite Erc.
  - exists TimedOut, TimedOut. by eexists _, _, _.
  - exists SpawnError, TimedOut. by eexists _, _, _.
Qed.

(** Every run of the Plain chain has one of three shapes. *)
Lemma forward_via_wine_shapes uri s :
  ∃ out0 out1 res f' evs,
    let c0 := (wine_start_invocation wineprefix_setting uri, out0) in
    let c1 := (wine_rundll32_invocation wineprefix_setting uri, out1) in
    forward_via_wine uri s = (res, after s f' evs) ∧
    match out0 with
    | Completed rc so se =>
        if (rc =? 0)%Z then res = Ok true ∧ runs evs = [c0]
        else res = Ok (passes exit_ok out1) ∧ runs evs = [c0; c1]
    | TimedOut | SpawnError => res = Ok false ∧ runs evs = [c0]
    end.
Proof.
  pose proof (forward_via_wine_shapes_from uri s (fs s)) as Hfrom.
  by rewrite <- after_start in Hfrom.
Qed.

Lemma classify_success m out :
  classify m out = Success ↔ passes (method_ok m) out = true.
Proof.
  destruct out as [rc so se| |]; simpl; [|done..].
  by destruct (method_ok m _).
Qed.

(** The calls of a run follow the chain: the call at position [k] is the
    call of the method at position [k]. *)
Lemma calls_follow_chain (uri : string) (bottle_name : option string)
    (s : state) (k : nat) (inv : invocation) (out : proc_outcome) :
  runs (events_of (forward_uri_to_wine uri bottle_name) s) !! k
    = Some (inv, out) →
  ∃ m, chain_of bottle_name !! k = Some m
       ∧ is_call_of m
           (default EmptyString
              (py_or bottle_name (environ !! "SV2_BOTTLE_NAME"))) uri inv.
Proof.
  unfold chain_of, events_of, forward_uri_to_wine.
  destruct (managed _).
  - destruct (forward_via_bottles_shapes uri
                (default EmptyString
                   (py_or bottle_name (environ !! "SV2_BOTTLE_NAME"))) s)
      as (out0 & out1 & out2 & out3 & exe & res & f & evs & -> & Hshape).
    simpl. rewrite drop_app_length.
    destruct Hshape as
      [(H0 & -> & ->)|[(H0 & -> & ->)|[(H0 & H1 & -> & ->)
      |[(H0 & H1 & H2 & -> & ->)|(H0 & H1 & H2 & -> & ->)]]]];
      destruct k as [|[|[|[|k]]]]; simpl; intros [= <- <-];
      eexists; (split; [reflexivity|]); simpl; eauto.
  - destruct (forward_via_wine_shapes uri s)
      as (out0 & out1 & res & f & evs & -> & Hshape).
    simpl. rewrite drop_app_length.
    destruct out0 as [rc so se| |]; [destruct (rc =? 0)%Z|..];
      destruct Hshape as [-> ->];
      destruct k as [|[|k]]; simpl; intros [= <- <-];
      eexists; (split; [reflexivity|]); simpl; eauto.
Qed.

(** C7: chain monotonicity.  In every run of [forward_uri_to_wine], if the
    call of the method at position [k] of the chain is classified
    [Success], it is the last call of the run and the function returns
    [True]: no later method is invoked. *)
Theorem chain_halts_at_first_success (uri : string)
    (bottle_name : option string) (s : state) (k : nat) (m : method)
    (inv : invocation) (out : proc_outcome) :
  chain_of bottle_name !! k = Some m →
  runs (events_of (forward_uri_to_wine uri bottle_name) s) !! k
    = Some (inv, out) →
  classify m out = Success →
  length (runs (events_of (forward_uri_to_wine uri bottle_name) s)) = S k
  ∧ fst (forward_uri_to_wine uri bottle_name s) = Ok true.
Proof.
  intros Hm Hk Hok%classify_success. revert Hm Hk.
  unfold chain_of, events_of, forward_uri_to_wine.
  destruct (managed _).
  - destruct (forward_via_bottles_shapes uri
                (default EmptyString
                   (py_or bottle_name (environ !! "SV2_BOTTLE_NAME"))) s)
      as (out0 & out1 & out2 & out3 & exe & res & f & evs & -> & Hshape).
    simpl. rewrite drop_app_length.
    destruct Hshape as
      [(H0 & -> & ->)|[(H0 & -> & ->)|[(H0 & H1 & -> & ->)
      |[(H0 & H1 & H2 & -> & ->)|(H0 & H1 & H2 & -> & ->)]]]];
      destruct k as [|[|[|[|k]]]]; simpl; intros [= <-] [= <- <-];
      unfold method_ok in Hok; try congruence; try done.
    by rewrite Hok.
  - destruct (forward_via_wine_shapes uri s)
      as (out0 & out1 & res & f & evs & -> & Hshape).
    simpl. rewrite drop_app_length.
    destruct out0 as [rc so se| |]; [destruct (rc =? 0)%Z eqn:Erc|..];
      destruct Hshape as [-> ->];
      destruct k as [|[|k]]; simpl; intros [= <-] [= <- <-];
      unfold method_ok in Hok;
      first [ done | by rewrite Hok
            | unfold exit_ok in Hok; simpl in Hok; congruence ].
Qed.

(** A zero exit status with a signature the method scans for is a
    [Failure]. *)
Lemma scanned_signature_is_failure m so se :
  method_error m se = true → classify m (Completed 0 so se) = Failure.
Proof.
  destruct m; simpl; try done;
    unfold shell_ok, cmd_ok, rundll32_ok; simpl; by intros ->.
Qed.

(** C6, amended: each of the first three methods of the Managed chain scans
    the captured [stderr] for its own list of signatures (method 0:
    [/bin/sh], [unexpected] in any case, [ShellExecuteEx failed]; method 1:
    [Executable file path does not exist], [ShellExecuteEx], [/bin/sh],
    [unexpected]; method 2: [/bin/sh], [unexpected]).  When such a method
    exits with status zero and its [stderr] contains one of the signatures
    it scans for, the attempt is a [Failure], and, unless the function
    leaves with an exception (the batch files could not be written), the
    next method of the chain is invoked. *)
Theorem scanned_signature_advances (uri : string)
    (bottle_name : option string) (s : state) (k : nat) (m : method)
    (inv : invocation) (so se : string) (b : bool) :
  let bottle :=
    default EmptyString (py_or bottle_name (environ !! "SV2_BOTTLE_NAME")) in
  let rs := runs (events_of (forward_uri_to_wine uri bottle_name) s) in
  chain_of bottle_name !! k = Some m →
  rs !! k = Some (inv, Completed 0 so se) →
  method_error m se = true →
  fst (forward_uri_to_wine uri bottle_name s) = Ok b →
  classify m (Completed 0 so se) = Failure
  ∧ ∃ m' inv' out',
      chain_of bottle_name !! S k = Some m'
      ∧ rs !! S k = Some (inv', out')
      ∧ is_call_of m' bottle uri inv'.
Proof.
  intros bottle rs Hm Hk Herr Hret.
  split; [by apply scanned_signature_is_failure|].
  pose proof (scanned_signature_is_failure m so se Herr) as Hfail.
  assert (passes (method_ok m) (Completed 0 so se) = false) as Hno.
  { destruct (passes _ _) eqn:E; [|done].
    apply classify_success in E. congruence. }
  subst rs bottle. revert Hm Hk Hret.
  unfold chain_of, events_of, forward_uri_to_wine.
  destruct (managed _).
  - destruct (forward_via_bottles_shapes uri
                (default EmptyString
                   (py_or bottle_name (environ !! "SV2_BOTTLE_NAME"))) s)
      as (out0 & out1 & out2 & out3 & exe & res & f & evs & -> & Hshape).
    simpl fst. simpl snd. simpl trace. rewrite drop_app_length.
    destruct Hshape as
      [(H0 & -> & ->)|[(H0 & -> & ->)|[(H0 & H1 & -> & ->)
      |[(H0 & H1 & H2 & -> & ->)|(H0 & H1 & H2 & -> & ->)]]]];
      destruct k as [|[|[|[|k]]]]; simpl; intros [= <-] [= <- ->] Hret;
      unfold method_ok in Hno; simpl in Herr; try congruence; try done;
      eexists _, _, _; (split; [reflexivity|]);
      (split; [reflexivity|]); simpl; eauto.
  - intros Hm. exfalso. revert Hm.
    destruct k as [|[|k]]; simpl; intros [= <-]; done.
Qed.

(** C8, amended: without management tool the chain attempts at most two
    methods in order, [wine start] with the URI and then, only when that
    call exits with a non-zero status, the protocol-dispatch utility.  Each
    attempt is judged by its exit status alone: status zero makes the
    function return [True] whatever was printed, and a call that raises
    ends the chain with [False]. *)
Theorem plain_chain_by_exit_status (uri : string)
    (bottle_name : option string) (s : state) :
  managed (py_or bottle_name (environ !! "SV2_BOTTLE_NAME")) = false →
  let r := forward_uri_to_wine uri bottle_name s in
  let rs := runs (events_of (forward_uri_to_wine uri bottle_name) s) in
  ∃ out0 out1,
    let c0 := (wine_start_invocation wineprefix_setting uri, out0) in
    let c1 := (wine_rundll32_invocation wineprefix_setting uri, out1) in
    match out0 with
    | Completed rc so se =>
        if (rc =? 0)%Z then rs = [c0] ∧ fst r = Ok true
        else rs = [c0; c1] ∧ fst r = Ok (passes exit_ok out1)
    | TimedOut | SpawnError => rs = [c0] ∧ fst r = Ok false
    end.
Proof.
  intros Hplain r rs. subst r rs.
  unfold events_of, forward_uri_to_wine. rewrite Hplain.
  destruct (forward_via_wine_shapes uri s)
    as (out0 & out1 & res & f & evs & -> & Hshape).
  simpl. rewrite drop_app_length. exists out0, out1.
  destruct out0 as [rc so se| |]; [destruct (rc =? 0)%Z|..];
    by destruct Hshape as [-> ->].
Qed.

End ChainRuns.

Section ChainScenarios.
Import Scenario.

(** The theorem [scanned_signature_advances] at Scenario B: the shell bridge
    is a [Failure] and the batch file is run next. *)
Lemma scanned_signature_scenario_B :
  let s := start fresh fs_drive_c in
  let rs := runs (events_of (@forward_uri_to_wine scenario_B_host uri None) s) in
  classify ShellBridge (Completed 0 EmptyString shell_complaint) = Failure
  ∧ ∃ m' inv' out',
      @chain_of scenario_B_host None !! 1%nat = Some m'
      ∧ rs !! 1%nat = Some (inv', out')
      ∧ @is_call_of scenario_B_host m' "sv2" uri inv'.
Proof.
  intros s rs.
  apply (@scanned_signature_advances scenario_B_host uri None s 0
           ShellBridge (shell_invocation "sv2" uri) EmptyString
           shell_complaint true); vm_compute; reflexivity.
Defined.

(** The theorem [chain_halts_at_first_success] at Scenario B: the batch
    file, second in the chain, succeeds and is the last call. *)
Lemma chain_halts_scenario_B :
  let s := start fresh fs_drive_c in
  length (runs (events_of (@forward_uri_to_wine scenario_B_host uri None) s))
    = 2%nat
  ∧ fst (@forward_uri_to_wine scenario_B_host uri None s) = Ok true.
Proof.
  intros s.
  apply (@chain_halts_at_first_success scenario_B_host uri None s 1
           BatchIndirection (cmd_invocation "sv2") ok_exit);
    vm_compute; reflexivity.
Defined.

(** C6, as stated, fails: the shell bridge exits with status 0 and the
    executable-not-found marker, a known signature, on [stderr]; the
    attempt is a [Success], the chain returns [True] and no further method
    is invoked.  Nor does a signature count when it is printed on [stdout],
    when the protocol-dispatch method meets a ShellExecute marker, or when
    the last method meets any signature. *)
Lemma unscanned_signature_is_success :
  let s := start fresh fs_drive_c in
  let out := Completed 0 EmptyString not_found_marker in
  spec_known_signature not_found_marker = true
  ∧ @chain_of not_found_host None !! 0%nat = Some ShellBridge
  ∧ runs (events_of (@forward_uri_to_wine not_found_host uri None) s)
    = [(shell_invocation "sv2" uri, out)]
  ∧ classify ShellBridge out = Success
  ∧ fst (@forward_uri_to_wine not_found_host uri None s) = Ok true
  ∧ classify ShellBridge (Completed 0 shell_complaint EmptyString) = Success
  ∧ classify ProtocolDispatch
      (Completed 0 EmptyString "ShellExecuteEx failed: File not found.")
    = Success
  ∧ classify DirectExecutable (Completed 0 EmptyString not_found_marker)
    = Success.
Proof.
  intros s out.
  repeat (split; [vm_compute; reflexivity|]). vm_compute. reflexivity.
Qed.

(** The theorem [plain_chain_by_exit_status] where [wine start] exits with
    status 1 and the protocol-dispatch utility with status 0. *)
Lemma plain_chain_scenario :
  let s := start fresh fs_bare in
  let r := @forward_uri_to_wine plain_second_host uri None s in
  let rs :=
    runs (events_of (@forward_uri_to_wine plain_second_host uri None) s) in
  ∃ out0 out1,
    let c0 := (@wine_start_invocation plain_second_host
                 (@wineprefix_setting plain_second_host) uri, out0) in
    let c1 := (@wine_rundll32_invocation plain_second_host
                 (@wineprefix_setting plain_second_host) uri, out1) in
    match out0 with
    | Completed rc so se =>
        if (rc =? 0)%Z then rs = [c0] ∧ fst r = Ok true
        else rs = [c0; c1] ∧ fst r = Ok (passes exit_ok out1)
    | TimedOut | SpawnError => rs = [c0] ∧ fst r = Ok false
    end.
Proof.
  intros s.
  apply (@plain_chain_by_exit_status plain_second_host uri None s).
  vm_compute. reflexivity.
Defined.

(** C8, as stated, fails: without management tool [wine start] exits with
    status 0 and a shell-syntax complaint on [stderr]; the attempt is a
    [Success], the function returns [True], and the protocol-dispatch
    utility is never tried, so only one method is attempted. *)
Lemma plain_chain_ignores_signature :
  let s := start fresh fs_bare in
  let out := Completed 0 EmptyString shell_complaint in
  @chain_of plain_complaint_host None = plain_chain
  ∧ spec_known_signature shell_complaint = true
  ∧ classify ShellBridge out = Failure
  ∧ classify WineStart out = Success
  ∧ runs (events_of (@forward_uri_to_wine plain_complaint_host uri None) s)
    = [(@wine_start_invocation plain_complaint_host
          "/home/alice/.wine-sv2" uri, out)]
  ∧ fst (@forward_uri_to_wine plain_complaint_host uri None s) = Ok true.
Proof.
  intros s out.
  repeat (split; [vm_compute; reflexivity|]). vm_compute. reflexivity.
Qed.

End ChainScenarios.

(** ** Further properties of the primary channel *)

Section HandoffMore.
Context `{Host}.

(** X1: when several candidates have a sentinel, the first of them in the
    candidate order receives the code: the candidates before it are probed,
    the ones after it are neither probed nor written. *)
Theorem write_cb_first_sentinel (c u : string) (before after : list string)
    (s s0 : state) (wp : Path) :
  get_wine_prefix s = (Ok wp, s0) →
  possible_users = before ++ u :: after →
  (∀ v, v ∈ before → fs_exists (fs s) (cv_file wp v) = false) →
  fs_exists (fs s) (cv_file wp u) = true →
  is_dir (fs s) (license_dir wp u) = true →
  is_dir (fs s) (cb_file wp u) = false →
  _write_auth_code_to_cb_file c s
  = (Ok true,
     State (self s) (<[cb_file wp u := File (Text c)]> (fs s))
           (trace s0 ++ missed wp before
              ++ [EvExists (cv_file wp u) true;
                  EvWrite (cb_file wp u) (Text c)])
           (ticks s)).
Proof.
  intros Hwp Heq Hbefore Hu Hdir Hcb.
  destruct (get_wine_prefix_total s) as (wp' & evs & Hwp' & _).
  rewrite Hwp in Hwp'. injection Hwp' as -> ->.
  unfold _write_auth_code_to_cb_file, try_except, bind at 1.
  rewrite Hwp, Heq.
  rewrite (for_user_in_found wp' c before u after); simpl; try done.
  unfold cb_file in *. rewrite pjoin_cb in *. by apply writable_child.
Qed.

(** The loop either places the code with one of its candidates, or raises
    with the file system untouched, or hands an untouched file system to
    the code after it. *)
Lemma for_user_in_placed wp c users all otherwise s :
  (∀ u, u ∈ users → u ∈ all) →
  (∀ s1, fs s1 = fs s →
         placed_or_untouched wp c all (fs s) (try_except otherwise
                                                (λ _, ret false) s1)) →
  placed_or_untouched wp c all (fs s)
    (try_except (for_user_in wp c users otherwise) (λ _, ret false) s).
Proof.
  revert s. induction users as [|v users IH]; intros s Hsub Ho; simpl.
  - by apply Ho.
  - unfold try_except, bind at 1, path_exists.
    destruct (fs_exists (fs s) (cv_file wp v)).
    + unfold bind, write_file, ret. simpl fs.
      destruct (writable (fs s) (cb_file wp v)); simpl.
      * left. split; [done|]. exists v.
        split; [apply Hsub, elem_of_cons; by left|done].
      * right. by split.
    + specialize (IH (emit (EvExists (cv_file wp v) false) s)).
      rewrite fs_emit in IH. apply IH.
      * intros u Hu. apply Hsub, elem_of_cons. by right.
      * intros s1 Hs1. by apply Ho.
Qed.

(** X2: the result of [_write_auth_code_to_cb_file] tells whether the code
    was placed.  The function never raises; when it returns [True], the
    only change to the file system is that the [cb] file of one candidate
    holds the code, unchanged; when it returns [False], the file system is
    as it was. *)
Theorem write_cb_result_tells_placement (c : string) (s s0 : state)
    (wp : Path) :
  get_wine_prefix s = (Ok wp, s0) →
  let r := _write_auth_code_to_cb_file c s in
  (fst r = Ok true
   ∧ ∃ u, u ∈ possible_users
          ∧ fs (snd r) = <[cb_file wp u := File (Text c)]> (fs s))
  ∨ (fst r = Ok false ∧ fs (snd r) = fs s).
Proof.
  intros Hwp r.
  destruct (get_wine_prefix_total s) as (wp' & evs & Hwp' & _).
  rewrite Hwp in Hwp'. injection Hwp' as -> ->.
  assert (placed_or_untouched wp' c possible_users (fs s) r) as Hr.
  { subst r. unfold _write_auth_code_to_cb_file.
    unfold try_except, bind at 1. rewrite Hwp.
    pose proof (for_user_in_placed wp' c possible_users possible_users
                  (let* found := path_exists (license_dir wp' "steamuser") in
                   if found then
                     write_file (cb_file wp' "steamuser") (Text c) ;; ret true
                   else ret false)
                  (add_events evs s)) as Hloop.
    unfold try_except in Hloop. rewrite fs_add_events in Hloop.
    apply Hloop; [done|].
    intros [o1 f1 t1 k1] Hs1. simpl in Hs1. subst f1.
    unfold bind, path_exists, write_file, ret. simpl.
    destruct (fs_exists (fs s) (license_dir wp' "steamuser")); simpl.
    - destruct (writable (fs s) (cb_file wp' "steamuser")); simpl.
      + left. split; [done|]. exists "steamuser".
        split; [apply elem_of_cons; by left|done].
      + right. by split.
    - right. by split. }
  destruct Hr as [Hr|[Hne Hfs]]; [by left|right].
  split; [|done].
  destruct (never_raises_write_cb c s) as [b Hb]. fold r in Hb.
  rewrite Hb in *. destruct b; [done|done].
Qed.

End HandoffMore.

Section HandoffMoreScenarios.
Import Scenario MoreScenarios.
#[local] Existing Instance quiet_host.

(** [write_cb_first_sentinel] with sentinels under [steamuser] and
    [Public]: the code goes to [steamuser], [Public] is not probed. *)
Lemma write_cb_first_sentinel_scenario :
  let s := start fresh fs_two_sentinels in
  fs_exists (fs s) (cv_file prefix "Public") = true ∧
  fst (_write_auth_code_to_cb_file "abc123" s) = Ok true ∧
  trace (snd (_write_auth_code_to_cb_file "abc123" s))
  = [EvExists (cv_file prefix "steamuser") true;
     EvWrite (cb_file prefix "steamuser") (Text "abc123")].
Proof.
  intros s. split; [vm_compute; reflexivity|].
  rewrite (write_cb_first_sentinel "abc123" "steamuser" []
             ["Public"; "alice"] s s prefix);
    [split; reflexivity|reflexivity|reflexivity| |vm_compute; reflexivity..].
  intros v Hv. by apply elem_of_nil in Hv.
Defined.

(** [write_cb_result_tells_placement] at Scenario A. *)
Lemma write_cb_result_scenario :
  let s := start fresh fs_steamuser_cv in
  let r := _write_auth_code_to_cb_file "abc123" s in
  (fst r = Ok true
   ∧ ∃ u, u ∈ possible_users
          ∧ fs (snd r) = <[cb_file prefix u := File (Text "abc123")]> (fs s))
  ∨ (fst r = Ok false ∧ fs (snd r) = fs s).
Proof.
  intros s. apply (write_cb_result_tells_placement "abc123" s s prefix).
  reflexivity.
Defined.

End HandoffMoreScenarios.

(** ** Further properties of the handoff writer and the capture endpoint *)

Lemma mkdir_from_no_file_changed f done_ todo f1 :
  mkdir_from f done_ todo = Some f1 → no_file_changed f f1.
Proof.
  revert f done_. induction todo as [|c todo IH]; intros f done_; simpl.
  - intros [= ->]. by intros p d.
  - destruct (f !! (done_ ++ [c])) as [[d0|]|] eqn:E; [done|by apply IH|].
    intros Hmk p d Hp. apply IH in Hmk. apply Hmk in Hp.
    destruct (decide (done_ ++ [c] = p)) as [<-|Hne].
    + by rewrite lookup_insert_eq in Hp.
    + by rewrite lookup_insert_ne in Hp.
Qed.

Section StoreMore.
Context `{Host}.

(** The prefix [get_wine_prefix] resolves depends on the file system only. *)
Lemma get_wine_prefix_fs_only s1 s2 :
  fs s1 = fs s2 → fst (get_wine_prefix s1) = fst (get_wine_prefix s2).
Proof.
  intros Hfs. unfold get_wine_prefix.
  destruct (environ !! "SV2_BOTTLE_NAME") as [name|]; [|done].
  destruct (truthy (Some name)); [|done].
  unfold bind, path_exists. rewrite Hfs.
  by destruct (fs_exists (fs s2) _).
Qed.

(** What [_store_auth_payload] does when the payload cannot be written. *)
Lemma store_fails_without_payload params s wp s0 :
  get_wine_prefix s = (Ok wp, s0) →
  ¬ payload_writable (fs s) wp →
  fst (_store_auth_payload params s) = Ok false
  ∧ runs (events_of (_store_auth_payload params) s) = []
  ∧ no_file_changed (fs s) (fs (snd (_store_auth_payload params s))).
Proof.
  intros Hwp Hno.
  destruct (get_wine_prefix_total s) as (wp' & evs & Hwp' & Hevs).
  rewrite Hwp in Hwp'. injection Hwp' as -> ->.
  assert (∃ evs' f',
            _store_auth_payload params s
            = (Ok false, State (self s) f' (trace s ++ evs') (S (ticks s)))
            ∧ runs evs' = [] ∧ no_file_changed (fs s) f')
    as (evs' & f' & Hrun & Hruns & Hfiles).
  { unfold _store_auth_payload, try_except. unfold bind at 1.
    rewrite Hwp. unfold bind at 1. unfold bind at 1, get_event_loop_time.
    unfold bind at 1, mkdir. simpl fs. fold (token_file wp').
    destruct (mkdir_parents (fs s) (parent (token_file wp')))
      as [f1|] eqn:Emk.
    - unfold bind at 1, write_file. simpl fs.
      destruct (writable f1 (token_file wp')) eqn:Ew.
      { destruct Hno. by exists f1. }
      exists (evs ++ [EvMkdir (parent (token_file wp'))]), f1.
      split; [|split].
      + unfold emit, set_fs, add_events. simpl. by rewrite <- app_assoc.
      + by rewrite runs_app, Hevs.
      + by eapply mkdir_from_no_file_changed.
    - exists evs, (fs s). simpl.
      split; [done|]. split; [done|]. by intros p d. }
  unfold events_of. rewrite Hrun. simpl. by rewrite drop_app_length.
Qed.

(** X3: [_store_auth_payload] returns [True] exactly when the diagnostic
    payload file could be written (its directory created and the file
    opened).  When it returns [False], no external program has been called
    and no file has been created or changed: the registry and the [cb]
    file were not attempted. *)
Theorem store_true_iff_payload_written (params : gmap string string)
    (s s0 : state) (wp : Path) :
  get_wine_prefix s = (Ok wp, s0) →
  (fst (_store_auth_payload params s) = Ok true
   ↔ payload_writable (fs s) wp)
  ∧ (fst (_store_auth_payload params s) = Ok false →
     runs (events_of (_store_auth_payload params) s) = []
     ∧ no_file_changed (fs s) (fs (snd (_store_auth_payload params s)))).
Proof.
  intros Hwp.
  assert (payload_writable (fs s) wp →
          fst (_store_auth_payload params s) = Ok true) as Hyes.
  { intros (f1 & Hmk & Hw).
    by eapply store_returns_true_once_payload_written. }
  assert (¬ payload_writable (fs s) wp →
          fst (_store_auth_payload params s) = Ok false) as Hno
    by (intros Hn; by eapply store_fails_without_payload).
  split; [split; [|done]|].
  - intros Htrue. destruct (mkdir_parents (fs s) (parent (token_file wp)))
      as [f1|] eqn:Emk.
    + destruct (writable f1 (token_file wp)) eqn:Ew; [by exists f1|].
      rewrite Hno in Htrue; [done|].
      intros (f1' & Hmk' & Hw'). congruence.
    + rewrite Hno in Htrue; [done|].
      intros (f1' & Hmk' & Hw'). congruence.
  - intros Hfalse.
    assert (¬ payload_writable (fs s) wp) as Hn.
    { intros Hp. rewrite (Hyes Hp) in Hfalse. done. }
    by destruct (store_fails_without_payload params s wp s0 Hwp Hn)
      as (_ & ? & ?).
Qed.

(** X4: a callback that carries a [code] key is answered with the success
    page (200) when the diagnostic payload file could be written and with
    the failure page (500) when it could not; whether the code reached a
    [cb] file plays no part.  In both cases the status query reports
    [has_auth_code] afterwards. *)
Theorem code_callback_answer (params : gmap string string) (s s0 : state)
    (wp : Path) :
  dict_has params "code" = true →
  get_wine_prefix s = (Ok wp, s0) →
  let r := auth_callback_handler params s in
  (payload_writable (fs s) wp → fst r = Ok (Response 200 ForwardedPage))
  ∧ (¬ payload_writable (fs s) wp →
     fst r = Ok (Response 500 ForwardFailedPage))
  ∧ has_auth_code (self (snd r)) = true.
Proof.
  intros Hcode Hwp r.
  remember (set_self
              (Server (port (self s)) (auth_token (self s))
                      (user_info (self s)) (Some params)
                      (redirect_uri_used (self s))) s) as s1 eqn:Hs1.
  assert (r = match _store_auth_payload params s1 with
              | (Ok true, s2) => (Ok (Response 200 ForwardedPage), s2)
              | (Ok false, s2) => (Ok (Response 500 ForwardFailedPage), s2)
              | (Raise e, s2) => (Raise e, s2)
              end) as Hr.
  { subst r s1. unfold auth_callback_handler, bind at 1.
    unfold set_last_auth_params. rewrite Hcode. unfold bind.
    by destruct (_store_auth_payload params _) as [[[]|] ?]. }
  clearbody r. subst r.
  assert (fs s1 = fs s) as Hfs by (by rewrite Hs1).
  assert (last_auth_params (self s1) = Some params) as Hlast
    by (by rewrite Hs1).
  destruct (get_wine_prefix_total s1) as (wp1 & evs1 & Hwp1 & _).
  assert (wp1 = wp) as ->.
  { pose proof (get_wine_prefix_fs_only s1 s Hfs) as Hsame.
    rewrite Hwp1, Hwp in Hsame. by injection Hsame. }
  pose proof (keeps_self_store params s1) as Hself.
  assert (payload_writable (fs s) wp →
          fst (_store_auth_payload params s1) = Ok true) as Hyes.
  { rewrite <- Hfs. intros (f1 & Hmk & Hw).
    by eapply store_returns_true_once_payload_written. }
  assert (¬ payload_writable (fs s) wp →
          fst (_store_auth_payload params s1) = Ok false) as Hno.
  { rewrite <- Hfs. intros Hn.
    by eapply store_fails_without_payload. }
  destruct (never_raises_store params s1) as [b Hb].
  destruct (_store_auth_payload params s1) as [[b'|e] s2]; simpl in *;
    [|done].
  split; [|split].
  - intros Hp. specialize (Hyes Hp). injection Hyes as ->. reflexivity.
  - intros Hn. specialize (Hno Hn). injection Hno as ->. reflexivity.
  - assert (has_auth_code (self s2) = true) as Hhas.
    { rewrite Hself. unfold has_auth_code. rewrite Hlast, Hcode, andb_true_r.
      apply bool_decide_eq_true. intros ->.
      unfold dict_has in Hcode. rewrite lookup_empty in Hcode.
      by apply bool_decide_eq_true, is_Some_None in Hcode. }
    by destruct b'.
Qed.

End StoreMore.
Section StoreMoreScenarios.
Import Scenario MoreScenarios.
#[local] Existing Instance quiet_host.

(** [store_true_iff_payload_written] on an empty home directory: the
    payload can be written, so the result is [True]. *)
Lemma store_true_scenario :
  fst (_store_auth_payload {[ "code" := "abc123" ]} (start fresh fs_bare))
  = Ok true.
Proof.
  destruct (store_true_iff_payload_written {[ "code" := "abc123" ]}
              (start fresh fs_bare) (start fresh fs_bare) prefix)
    as [[_ Hyes] _]; [reflexivity|].
  apply Hyes. eexists. split; [reflexivity|]. vm_compute. reflexivity.
Defined.

(** [code_callback_answer] where [drive_c/users] is a file: the answer is
    the failure page, and the status query reports a code all the same. *)
Lemma code_callback_blocked_scenario :
  let r := auth_callback_handler {[ "code" := "abc123" ]}
             (start fresh fs_blocked) in
  fst r = Ok (Response 500 ForwardFailedPage)
  ∧ has_auth_code (self (snd r)) = true.
Proof.
  intros r.
  destruct (code_callback_answer {[ "code" := "abc123" ]}
              (start fresh fs_blocked) (start fresh fs_blocked) prefix)
    as (_ & Hno & Hhas); [vm_compute; reflexivity|reflexivity|].
  split; [|exact Hhas]. apply Hno.
  intros (f1 & Hmk & _). vm_compute in Hmk. discriminate.
Defined.

End StoreMoreScenarios.

(** ** Further properties of the environment resolver *)

Lemma rglob_match_iff dir name p :
  rglob_match dir name p = true
  ↔ ∃ rel, p = dir ++ rel ∧ last rel = Some name.
Proof.
  unfold rglob_match. split.
  - destruct (relative_to p dir) as [rel|] eqn:E; [|done].
    intros Hlast%bool_decide_eq_true. exists rel.
    split; [by apply relative_to_Some|done].
  - intros (rel & -> & Hlast). rewrite relative_to_app.
    by apply bool_decide_eq_true.
Qed.

Lemma exe_candidates_below (drive_c : Path) :
  ∀ q, q ∈ exe_candidates drive_c → is_executable_below drive_c q.
Proof.
  intros q Hq. unfold exe_candidates in Hq.
  repeat (apply elem_of_cons in Hq as [->|Hq]);
    [exists ["svstudio2_app"; exe_name]
    |exists ["Program Files"; "Dreamtonics"; "Synthesizer V Studio 2";
             exe_name]
    |exists ["Program Files (x86)"; "Dreamtonics"; "Synthesizer V Studio 2";
             exe_name]
    |by apply elem_of_nil in Hq];
    (split; [|reflexivity]);
    change (?a </> "svstudio2_app") with (a ++ ["svstudio2_app"]);
    change (?a </> "Program Files") with (a ++ ["Program Files"]);
    change (?a </> "Program Files (x86)") with (a ++ ["Program Files (x86)"]);
    change (?a </> "Dreamtonics") with (a ++ ["Dreamtonics"]);
    change (?a </> "Synthesizer V Studio 2")
      with (a ++ ["Synthesizer V Studio 2"]);
    change (?a </> exe_name) with (a ++ [exe_name]);
    by rewrite <- !app_assoc.
Qed.

Lemma exists_iff_key (f : FS) (p : Path) :
  fs_exists f p = true ↔ p ∈ map fst (map_to_list f).
Proof.
  unfold fs_exists. rewrite bool_decide_eq_true, list_elem_of_In, in_map_iff.
  split.
  - intros [v Hv]. exists (p, v). split; [done|].
    by apply list_elem_of_In, elem_of_map_to_list.
  - intros ([q v] & <- & Hin). exists v.
    by apply elem_of_map_to_list, list_elem_of_In.
Qed.

Section ResolverMore.
Context `{Host}.

Lemma for_candidate_in_found before c after otherwise s :
  (∀ q, q ∈ before → fs_exists (fs s) q = false) →
  fs_exists (fs s) c = true →
  fst (for_candidate_in (before ++ c :: after) otherwise s) = Ok (Some c).
Proof.
  revert s. induction before as [|q before IH]; intros s Hno Hc; simpl.
  - unfold bind, path_exists. by rewrite Hc.
  - unfold bind at 1, path_exists.
    rewrite (Hno q) by (apply elem_of_cons; by left).
    apply IH; [|done]. intros q' Hq'. apply Hno, elem_of_cons. by right.
Qed.

Lemma for_candidate_in_missing cs otherwise s :
  (∀ q, q ∈ cs → fs_exists (fs s) q = false) →
  for_candidate_in cs otherwise s
  = otherwise (add_events (map (λ q, EvExists q false) cs) s).
Proof.
  revert s. induction cs as [|q cs IH]; intros s Hno; simpl.
  - by rewrite add_events_nil.
  - unfold bind at 1, path_exists.
    rewrite (Hno q) by (apply elem_of_cons; by left).
    rewrite emit_add_events, IH, add_events_app; [done|].
    intros q' Hq'. apply Hno, elem_of_cons. by right.
Qed.

(** The candidates either all miss, or one of them is the first hit. *)
Lemma candidates_split (f : FS) (cs : list Path) :
  (∀ q, q ∈ cs → fs_exists f q = false)
  ∨ ∃ before c after, cs = before ++ c :: after
      ∧ (∀ q, q ∈ before → fs_exists f q = false)
      ∧ fs_exists f c = true.
Proof.
  induction cs as [|q cs IH].
  - left. intros q Hq. by apply elem_of_nil in Hq.
  - destruct (fs_exists f q) eqn:Eq.
    + right. exists [], q, cs. split; [done|]. split; [|done].
      intros q' Hq'. by apply elem_of_nil in Hq'.
    + destruct IH as [Hnone|(before & c & after & -> & Hno & Hc)].
      * left. intros q' [->|Hq']%elem_of_cons; [done|by apply Hnone].
      * right. exists (q :: before), c, after. split; [done|].
        split; [|done].
        intros q' [->|Hq']%elem_of_cons; [done|by apply Hno].
Qed.

(** What the search below [drive_c] returns. *)
Lemma rglob_first_result dir name s :
  fst (try_except (rglob_first dir name) (λ _, ret None) s)
  = Ok (head (filter (λ p, rglob_match dir name p = true)
                     (map fst (map_to_list (fs s))))).
Proof. reflexivity. Qed.

(** A path the search returns exists and lies below [drive_c]. *)
Lemma find_sv2_executable_found (wine_prefix : string) (s : state)
    (p : Path) :
  fst (_find_sv2_executable wine_prefix s) = Ok (Some p) →
  fs_exists (fs s) p = true
  ∧ is_executable_below (Path_of wine_prefix </> "drive_c") p.
Proof.
  unfold _find_sv2_executable.
  set (drive_c := Path_of wine_prefix </> "drive_c").
  destruct (candidates_split (fs s) (exe_candidates drive_c))
    as [Hnone|(before & c & after & Heq & Hno & Hc)].
  - rewrite for_candidate_in_missing by done.
    rewrite rglob_first_result, fs_add_events. intros [= Hhead].
    apply head_Some_elem_of, list_elem_of_filter in Hhead as [Hmatch Hkey].
    split; [by apply exists_iff_key|by apply rglob_match_iff].
  - rewrite Heq, for_candidate_in_found by done. intros [= <-].
    split; [done|]. apply exe_candidates_below.
    rewrite Heq, elem_of_app. right. apply elem_of_cons. by left.
Qed.

(** X5: [_find_sv2_executable] only returns what is there: a path it
    returns exists, is named [synthv-studio.exe] and lies below the
    [drive_c] of the prefix.  The search changes no file and calls no
    program. *)
Theorem find_sv2_executable_sound (wine_prefix : string) (s : state)
    (p : Path) :
  fst (_find_sv2_executable wine_prefix s) = Ok (Some p) →
  fs_exists (fs s) p = true
  ∧ is_executable_below (Path_of wine_prefix </> "drive_c") p
  ∧ fs (snd (_find_sv2_executable wine_prefix s)) = fs s
  ∧ runs (events_of (_find_sv2_executable wine_prefix) s) = [].
Proof.
  intros Hfound.
  destruct (find_sv2_executable_total wine_prefix s)
    as (r & evs & Hrun & Hruns).
  destruct (find_sv2_executable_found _ _ _ Hfound) as [Hthere Hbelow].
  split; [done|]. split; [done|].
  unfold events_of. rewrite Hrun. simpl. by rewrite drop_app_length.
Qed.

(** X23: the executable the search returns is always translated to a
    drive path.  On a host that resolves every path to itself (no symbolic
    links), [_to_windows_path] applied to a result of
    [_find_sv2_executable] for the same prefix never takes its fallback:
    the result is [C:\] followed by the components below [drive_c],
    joined by backslashes, and the last component is
    [synthv-studio.exe]. *)
Theorem found_executable_translates (wine_prefix : string) (s : state)
    (p : Path) :
  (∀ q : Path, resolve q = q) →
  fst (_find_sv2_executable wine_prefix s) = Ok (Some p) →
  ∃ rel, p = (Path_of wine_prefix </> "drive_c") ++ rel
         ∧ last rel = Some exe_name
         ∧ _to_windows_path p wine_prefix = "C:\" +:+ join "\" rel.
Proof.
  intros Hresolve Hfound.
  destruct (find_sv2_executable_found _ _ _ Hfound)
    as [_ (rel & -> & Hlast)].
  exists rel. split; [done|]. split; [done|].
  unfold _to_windows_path. by rewrite !Hresolve, relative_to_app.
Qed.

(** When the search comes back empty. *)
Lemma find_sv2_executable_none (wine_prefix : string) (s : state) :
  fst (_find_sv2_executable wine_prefix s) = Ok None
  ↔ ∀ p, fs_exists (fs s) p = true →
         ¬ is_executable_below (Path_of wine_prefix </> "drive_c") p.
Proof.
  unfold _find_sv2_executable.
  set (drive_c := Path_of wine_prefix </> "drive_c").
  destruct (candidates_split (fs s) (exe_candidates drive_c))
    as [Hnone|(before & c & after & Heq & Hno & Hc)].
  - rewrite for_candidate_in_missing by done.
    rewrite rglob_first_result, fs_add_events. split.
    + intros [= Hhead%head_None] p Hp Hbelow.
      eapply filter_nil_not_elem_of;
        [exact Hhead|by apply rglob_match_iff|by apply exists_iff_key].
    + intros Hnothing. f_equal. apply head_None.
      destruct (filter _ _) as [|p l] eqn:Ef; [done|].
      assert (p ∈ filter (λ p, rglob_match drive_c exe_name p = true)
                    (map fst (map_to_list (fs s)))) as Hp
        by (rewrite Ef; apply elem_of_cons; by left).
      apply list_elem_of_filter in Hp as [Hmatch Hkey].
      destruct (Hnothing p); [by apply exists_iff_key|].
      by apply rglob_match_iff.
  - rewrite Heq, for_candidate_in_found by done. split; [done|].
    intros Hnothing. destruct (Hnothing c Hc).
    apply exe_candidates_below.
    rewrite Heq, elem_of_app. right. apply elem_of_cons. by left.
Qed.

(** X6: [_find_sv2_executable] returns [None] exactly when no entry named
    [synthv-studio.exe] exists anywhere below the [drive_c] of the
    prefix. *)
Theorem find_sv2_executable_none_iff (wine_prefix : string) (s : state) :
  fst (_find_sv2_executable wine_prefix s) = Ok None
  ↔ ∀ p, fs_exists (fs s) p = true →
         ¬ is_executable_below (Path_of wine_prefix </> "drive_c") p.
Proof. apply find_sv2_executable_none. Qed.

(** X7: the known install locations come first and in order: the first
    of them that exists is returned, whatever else lies in the prefix. *)
Theorem find_sv2_executable_prefers_known (wine_prefix : string) (s : state)
    (before after : list Path) (c : Path) :
  exe_candidates (Path_of wine_prefix </> "drive_c") = before ++ c :: after →
  (∀ q, q ∈ before → fs_exists (fs s) q = false) →
  fs_exists (fs s) c = true →
  fst (_find_sv2_executable wine_prefix s) = Ok (Some c).
Proof.
  intros Heq Hno Hc. unfold _find_sv2_executable.
  rewrite Heq. by apply for_candidate_in_found.
Qed.

End ResolverMore.

Section ResolverMoreScenarios.
Import Scenario MoreScenarios.
#[local] Existing Instance quiet_host.

(** [find_sv2_executable_sound] where the executable lies at an unusual
    place only. *)
Lemma find_sv2_executable_unusual_scenario :
  let s := start fresh fs_unusual in
  let p := prefix ++ ["drive_c"; "backup"; "synthv-studio.exe"] in
  fs_exists (fs s) p = true
  ∧ is_executable_below (Path_of "/home/alice/.wine-sv2" </> "drive_c") p
  ∧ fs (snd (_find_sv2_executable "/home/alice/.wine-sv2" s)) = fs s
  ∧ runs (events_of (_find_sv2_executable "/home/alice/.wine-sv2") s) = [].
Proof.
  intros s p.
  apply (find_sv2_executable_sound "/home/alice/.wine-sv2" s p).
  vm_compute. reflexivity.
Defined.

(** [find_sv2_executable_prefers_known] with the executable installed at
    its first known location and a second copy elsewhere. *)
Lemma find_sv2_executable_installed_scenario :
  fst (_find_sv2_executable "/home/alice/.wine-sv2" (start fresh fs_installed))
  = Ok (Some (prefix ++ ["drive_c"; "svstudio2_app"; "synthv-studio.exe"])).
Proof.
  apply (find_sv2_executable_prefers_known "/home/alice/.wine-sv2"
           (start fresh fs_installed) []
           [prefix ++ ["drive_c"; "Program Files"; "Dreamtonics";
                       "Synthesizer V Studio 2"; "synthv-studio.exe"];
            prefix ++ ["drive_c"; "Program Files (x86)"; "Dreamtonics";
                       "Synthesizer V Studio 2"; "synthv-studio.exe"]]
           (prefix ++ ["drive_c"; "svstudio2_app"; "synthv-studio.exe"]));
    [reflexivity| |vm_compute; reflexivity].
  intros q Hq. by apply elem_of_nil in Hq.
Defined.

(** [found_executable_translates] where the executable lies at an unusual
    place only. *)
Lemma found_executable_translates_scenario :
  _to_windows_path (prefix ++ ["drive_c"; "backup"; "synthv-studio.exe"])
    "/home/alice/.wine-sv2"
  = "C:\backup\synthv-studio.exe".
Proof.
  destruct (found_executable_translates "/home/alice/.wine-sv2"
              (start fresh fs_unusual)
              (prefix ++ ["drive_c"; "backup"; "synthv-studio.exe"]))
    as (rel & Heq & _ & ->).
  - done.
  - vm_compute. reflexivity.
  - vm_compute in Heq. injection Heq as <-. vm_compute. reflexivity.
Defined.

End ResolverMoreScenarios.

(** ** Further properties of the secondary channel *)

Section RegistryMore.
Context `{Host}.

(** The loop over the registry values when every call completes. *)
Lemma for_reg_value_complete bottle values flag s :
  programs_complete →
  ∃ flag' f' evs,
    for_reg_value bottle values flag s
    = (Ok flag', State (self s) f' (trace s ++ evs) (ticks s))
    ∧ map fst (runs evs)
      = map (λ v, Invocation (reg_add_argv bottle v.1 v.2) None None) values.
Proof.
  intros Hcomplete. revert flag s.
  induction values as [|[name data] values IH]; intros flag s; simpl.
  - exists flag, (fs s), []. rewrite app_nil_r. by destruct s.
  - unfold bind at 1, subprocess_run.
    destruct (Hcomplete (Invocation (reg_add_argv bottle name data) None None)
                (fs s)) as (rc & so & se & f1 & ->).
    cbn [returncode].
    destruct (negb (rc =? 0)%Z);
      match goal with |- context [for_reg_value bottle values ?fl ?s1] =>
        destruct (IH fl s1) as (flag' & f' & evs & -> & Hruns)
      end;
      eexists flag', f', (_ :: evs);
      (split; [simpl; by rewrite <- app_assoc|]);
      cbn [runs map fst]; by f_equal.
Qed.

(** X8: with a bottle configured and [flatpak] available, and external
    programs that complete, [_inject_registry_payload] writes the five
    values [AuthCode], [State], [SessionState], [Issuer], [AuthTimestamp]
    through five [bottles-cli reg add] calls in that order, a missing
    parameter being written as the empty string, and returns [True]
    whatever the exit codes of the calls. *)
Theorem registry_managed_writes_all_keys (params : gmap string string)
    (s : state) :
  truthy (environ !! "SV2_BOTTLE_NAME") && which "flatpak" = true →
  programs_complete →
  fst (_inject_registry_payload params s) = Ok true
  ∧ map fst (runs (events_of (_inject_registry_payload params) s))
    = map (λ v, Invocation
                  (reg_add_argv
                     (default EmptyString (environ !! "SV2_BOTTLE_NAME"))
                     v.1 v.2) None None)
          (registry_values params (loop_time (ticks s))).
Proof.
  intros Hmanaged Hcomplete.
  assert (∃ f' evs,
            _inject_registry_payload params s
            = (Ok true, State (self s) f' (trace s ++ evs) (S (ticks s)))
            ∧ map fst (runs evs)
              = map (λ v, Invocation
                            (reg_add_argv
                               (default EmptyString
                                  (environ !! "SV2_BOTTLE_NAME"))
                               v.1 v.2) None None)
                    (registry_values params (loop_time (ticks s))))
    as (f' & evs & Hrun & Hruns).
  { unfold _inject_registry_payload, try_except.
    unfold bind at 1, get_event_loop_time. rewrite Hmanaged.
    unfold bind at 1.
    match goal with |- context [for_reg_value ?b ?vs true ?s1] =>
      destruct (for_reg_value_complete b vs true s1 Hcomplete)
        as (flag' & f' & evs & -> & Hruns)
    end.
    exists f', evs. simpl. split; [by destruct flag'|done]. }
  unfold events_of. rewrite Hrun. simpl. by rewrite drop_app_length.
Qed.

(** The run of the Plain branch up to the call of [regedit]. *)
Lemma registry_plain_run params s wp :
  truthy (environ !! "SV2_BOTTLE_NAME") && which "flatpak" = false →
  writable (fs s) (mktemp (fs s)) = true →
  let now := loop_time (ticks s) in
  let tmp := mktemp (fs s) in
  let f1 := <[tmp := File (registry_script params now)]> (fs s) in
  let inv := Invocation [wine_exe; "regedit"; str_of_path tmp]
                        (Some (str_of_path wp)) None in
  fst (get_wine_prefix (set_fs f1 s)) = Ok wp →
  ∃ evs,
    _inject_registry_payload params s
    = match subprocess inv f1 with
      | (Completed rc so se, f2) =>
          match f2 !! tmp with
          | Some (File _) =>
              (Ok (rc =? 0)%Z,
               State (self s) (delete tmp f2)
                     (trace s ++ evs
                        ++ [EvRun inv (Completed rc so se); EvUnlink tmp])
                     (S (ticks s)))
          | _ =>
              (Ok false,
               State (self s) f2
                     (trace s ++ evs ++ [EvRun inv (Completed rc so se)])
                     (S (ticks s)))
          end
      | (out, f2) =>
          (Ok false,
           State (self s) f2 (trace s ++ evs ++ [EvRun inv out])
                 (S (ticks s)))
      end.
Proof.
  intros Hplain Hw now tmp f1 inv Hwp. subst now tmp f1 inv.
  unfold _inject_registry_payload, try_except.
  unfold bind at 1, get_event_loop_time. rewrite Hplain.
  unfold bind at 1. simpl fs. unfold bind at 1, write_file. simpl fs.
  rewrite Hw. fold (registry_script params (loop_time (ticks s))).
  unfold bind at 1.
  match goal with |- context [get_wine_prefix ?s1] =>
    destruct (get_wine_prefix_total s1) as (wp1 & evs1 & Hwp1 & _);
    pose proof (get_wine_prefix_fs_only s1
                  (set_fs (<[mktemp (fs s) :=
                               File (registry_script params
                                       (loop_time (ticks s)))]> (fs s)) s)
                  eq_refl) as Hsame;
    rewrite Hwp1 in Hsame;
    assert (Ok wp1 = Ok wp) as [= ->] by (etrans; [exact Hsame|exact Hwp]);
    rewrite Hwp1
  end.
  exists ([EvWrite (mktemp (fs s))
             (registry_script params (loop_time (ticks s)))] ++ evs1).
  unfold bind at 1, subprocess_run. simpl fs.
  destruct (subprocess _ _) as [[rc so se| |] f2]; simpl.
  - unfold bind, unlink, ret. simpl.
    destruct (f2 !! mktemp (fs s)) as [[d|]|]; simpl;
      unfold emit, set_fs, add_events; simpl; by rewrite <- !app_assoc.
  - unfold ret, emit, set_fs, add_events. simpl. by rewrite <- !app_assoc.
  - unfold ret, emit, set_fs, add_events. simpl. by rewrite <- !app_assoc.
Qed.

(** X9: without management tool, when [regedit] completes and leaves the
    temporary script in place, [_inject_registry_payload] returns whether
    its exit code was zero, and the temporary script is removed again:
    apart from that the file system is as [regedit] left it. *)
Theorem registry_plain_removes_script (params : gmap string string)
    (s : state) (wp : Path) (rc : Z) (so se : string) (f2 : FS)
    (d : content) :
  truthy (environ !! "SV2_BOTTLE_NAME") && which "flatpak" = false →
  writable (fs s) (mktemp (fs s)) = true →
  let tmp := mktemp (fs s) in
  let f1 :=
    <[tmp := File (registry_script params (loop_time (ticks s)))]> (fs s) in
  fst (get_wine_prefix (set_fs f1 s)) = Ok wp →
  subprocess (Invocation [wine_exe; "regedit"; str_of_path tmp]
                         (Some (str_of_path wp)) None) f1
    = (Completed rc so se, f2) →
  f2 !! tmp = Some (File d) →
  fst (_inject_registry_payload params s) = Ok (rc =? 0)%Z
  ∧ fs (snd (_inject_registry_payload params s)) = delete tmp f2.
Proof.
  intros Hplain Hw tmp f1 Hwp Hsub Hleft.
  destruct (registry_plain_run params s wp Hplain Hw Hwp) as (evs & ->).
  fold tmp f1. rewrite Hsub, Hleft. done.
Qed.

(** X10: without management tool, when [regedit] cannot be run (the call
    raises), [_inject_registry_payload] returns [False] and does not remove
    the temporary script: the file system is left as the failed call left
    it. *)
Theorem registry_plain_leaves_script (params : gmap string string)
    (s : state) (wp : Path) (out : proc_outcome) (f2 : FS) :
  truthy (environ !! "SV2_BOTTLE_NAME") && which "flatpak" = false →
  writable (fs s) (mktemp (fs s)) = true →
  let tmp := mktemp (fs s) in
  let f1 :=
    <[tmp := File (registry_script params (loop_time (ticks s)))]> (fs s) in
  fst (get_wine_prefix (set_fs f1 s)) = Ok wp →
  subprocess (Invocation [wine_exe; "regedit"; str_of_path tmp]
                         (Some (str_of_path wp)) None) f1
    = (out, f2) →
  out = TimedOut ∨ out = SpawnError →
  fst (_inject_registry_payload params s) = Ok false
  ∧ fs (snd (_inject_registry_payload params s)) = f2.
Proof.
  intros Hplain Hw tmp f1 Hwp Hsub Hout.
  destruct (registry_plain_run params s wp Hplain Hw Hwp) as (evs & ->).
  fold tmp f1. rewrite Hsub. by destruct Hout as [-> | ->].
Qed.

End RegistryMore.

Section RegistryMoreScenarios.
Import Scenario MoreScenarios.

Lemma quiet_programs_complete env flatpak :
  @programs_complete (host env flatpak quiet).
Proof. intros inv f. by exists 0%Z, EmptyString, EmptyString, f. Qed.

(** [registry_managed_writes_all_keys] on a host with a bottle and quiet
    programs. *)
Lemma registry_managed_scenario :
  let params : gmap string string :=
    <[ "state" := "xyz" ]> {[ "code" := "abc123" ]} in
  let s := start fresh fs_bare in
  fst (@_inject_registry_payload quiet_bottle_host params s) = Ok true
  ∧ map fst (runs (events_of
                     (@_inject_registry_payload quiet_bottle_host params) s))
    = map (λ v, Invocation (reg_add_argv "sv2" v.1 v.2) None None)
          [("AuthCode", "abc123"); ("State", "xyz");
           ("SessionState", EmptyString); ("Issuer", EmptyString);
           ("AuthTimestamp", "0")].
Proof.
  intros params s.
  apply (@registry_managed_writes_all_keys quiet_bottle_host params s).
  - vm_compute. reflexivity.
  - apply quiet_programs_complete.
Defined.

(** [registry_plain_removes_script] with a quiet [regedit]: the result is
    [True] and the temporary script is gone. *)
Lemma registry_plain_scenario :
  let params : gmap string string := {[ "code" := "abc123" ]} in
  let s := start fresh fs_bare in
  let tmp := ["tmp"; "tmpk3x9.reg"] in
  fst (@_inject_registry_payload quiet_host params s) = Ok true
  ∧ fs (snd (@_inject_registry_payload quiet_host params s)) !! tmp = None.
Proof.
  intros params s tmp.
  destruct (@registry_plain_removes_script quiet_host params s prefix 0
              EmptyString EmptyString
              (<[tmp := File (registry_script params 0)]> (fs s))
              (registry_script params 0))
    as [-> ->].
  - vm_compute. reflexivity.
  - vm_compute. reflexivity.
  - vm_compute. reflexivity.
  - reflexivity.
  - apply lookup_insert_eq.
  - split; [reflexivity|]. apply lookup_delete_eq.
Defined.

(** [registry_plain_leaves_script] when no program can be started: the
    result is [False] and the temporary script stays behind. *)
Lemma registry_plain_leak_scenario :
  let params : gmap string string := {[ "code" := "abc123" ]} in
  let s := start fresh fs_bare in
  let tmp := ["tmp"; "tmpk3x9.reg"] in
  fst (@_inject_registry_payload no_programs_host params s) = Ok false
  ∧ fs (snd (@_inject_registry_payload no_programs_host params s)) !! tmp
    = Some (File (registry_script params 0)).
Proof.
  intros params s tmp.
  destruct (@registry_plain_leaves_script no_programs_host params s prefix
              SpawnError
              (<[tmp := File (registry_script params 0)]> (fs s)))
    as [-> ->].
  - vm_compute. reflexivity.
  - vm_compute. reflexivity.
  - vm_compute. reflexivity.
  - reflexivity.
  - by right.
  - split; [reflexivity|]. apply lookup_insert_eq.
Defined.

End RegistryMoreScenarios.

(** ** Further properties of the delivery fallback chain *)

Section ChainMore.
Context `{Host}.

(** The prefix resolved on a state of the form [after s f evs]. *)
Lemma get_wine_prefix_after_fs s f evs wp :
  fst (get_wine_prefix (set_fs f s)) = Ok wp →
  ∃ evs', get_wine_prefix (after s f evs) = (Ok wp, after s f (evs ++ evs'))
          ∧ runs evs' = [].
Proof.
  intros Hwp.
  destruct (get_wine_prefix_after s f evs) as (wp1 & evs' & Hrun & Hruns).
  pose proof (get_wine_prefix_fs_only (after s f evs) (set_fs f s) eq_refl)
    as Hsame.
  rewrite Hrun in Hsame.
  assert (Ok wp1 = Ok wp) as [= ->] by (etrans; [exact Hsame|exact Hwp]).
  by exists evs'.
Qed.

(** The Managed chain after a shell bridge that did not succeed: the two
    batch files are written below the resolved prefix, and the batch call
    sees them. *)
Lemma forward_via_bottles_after_shell uri bottle s f_init wp :
  let o0 := subprocess (shell_invocation bottle uri) f_init in
  let c0 := (shell_invocation bottle uri, o0.1) in
  let uri_path := wp </> "drive_c" </> "sv2_uri.txt" in
  let bat_path := wp </> "drive_c" </> "sv2_open_uri.bat" in
  let f1 := <[uri_path := File (Text uri)]> o0.2 in
  let f2 := <[bat_path := File (Text bat_content)]> f1 in
  passes shell_ok o0.1 = false →
  fst (get_wine_prefix (set_fs o0.2 s)) = Ok wp →
  ∃ res f evs rest,
    forward_via_bottles uri bottle (after s f_init []) = (res, after s f evs)
    ∧ runs evs = c0 :: rest
    ∧ (writable o0.2 uri_path = false →
       res = Raise OSError ∧ f = o0.2 ∧ rest = [])
    ∧ (writable o0.2 uri_path = true → writable f1 bat_path = true →
       ∃ rest', rest = (cmd_invocation bottle,
                        (subprocess (cmd_invocation bottle) f2).1) :: rest').
Proof.
  intros o0 c0 uri_path bat_path f1 f2 E0 Hwp.
  unfold forward_via_bottles.
  unfold bind at 1. rewrite attempt_after. simpl app. fold o0. rewrite E0.
  unfold bind at 1.
  destruct (get_wine_prefix_after_fs s o0.2
              [EvRun (shell_invocation bottle uri) o0.1] wp Hwp)
    as (evs1 & -> & Hevs1).
  unfold bind at 1. rewrite write_file_after. fold uri_path.
  destruct (writable o0.2 uri_path) eqn:Ew1.
  2:{ eexists _, _, _, []. split; [reflexivity|].
      split; [by rewrite runs_app, Hevs1|]. split; [done|done]. }
  unfold bind at 1. rewrite write_file_after. fold f1 bat_path.
  destruct (writable f1 bat_path) eqn:Ew2.
  2:{ eexists _, _, _, []. split; [reflexivity|].
      split; [by rewrite !runs_app, Hevs1|]. split; [done|done]. }
  unfold bind at 1. rewrite attempt_after. fold f2.
  set (o1 := subprocess (cmd_invocation bottle) f2).
  destruct (passes cmd_ok o1.1).
  { eexists _, _, _, _. split; [reflexivity|].
    split; [rewrite !runs_app, Hevs1; reflexivity|].
    split; [done|]. intros _ _. by eexists. }
  unfold bind at 1. rewrite attempt_after.
  set (o2 := subprocess (rundll32_invocation bottle uri) o1.2).
  destruct (passes rundll32_ok o2.1).
  { eexists _, _, _, _. split; [reflexivity|].
    split; [rewrite !runs_app, Hevs1; reflexivity|].
    split; [done|]. intros _ _. by eexists. }
  unfold bind at 1.
  match goal with |- context [_find_sv2_executable ?w (after s ?f ?evs)] =>
    destruct (find_sv2_executable_after w s f evs) as (exe & evs2 & -> & Hevs2)
  end.
  rewrite attempt_after.
  eexists _, _, _, _. split; [reflexivity|].
  split; [rewrite !runs_app, Hevs1, Hevs2; reflexivity|].
  split; [done|]. intros _ _. by eexists.
Qed.

(** The run of [forward_uri_to_wine] in the Managed variant. *)
Lemma forward_uri_to_wine_managed uri bottle_name s :
  managed (py_or bottle_name (environ !! "SV2_BOTTLE_NAME")) = true →
  forward_uri_to_wine uri bottle_name s
  = forward_via_bottles uri
      (default EmptyString (py_or bottle_name (environ !! "SV2_BOTTLE_NAME")))
      (after s (fs s) []).
Proof.
  intros Hm. unfold forward_uri_to_wine. rewrite Hm.
  by rewrite <- after_start.
Qed.

(** X11: the Managed chain is not shielded against a prefix it cannot write
    to.  When the shell bridge does not succeed and the URI file
    [drive_c/sv2_uri.txt] cannot be written (for instance because the
    prefix has no [drive_c]), [forward_uri_to_wine] raises instead of
    returning: it has made the one call of the shell bridge, and no later
    method is tried. *)
Theorem managed_chain_raises_when_unwritable (uri : string)
    (bottle_name : option string) (s : state) (wp : Path) :
  let bottle :=
    default EmptyString (py_or bottle_name (environ !! "SV2_BOTTLE_NAME")) in
  let o0 := subprocess (shell_invocation bottle uri) (fs s) in
  managed (py_or bottle_name (environ !! "SV2_BOTTLE_NAME")) = true →
  passes shell_ok o0.1 = false →
  fst (get_wine_prefix (set_fs o0.2 s)) = Ok wp →
  writable o0.2 (wp </> "drive_c" </> "sv2_uri.txt") = false →
  fst (forward_uri_to_wine uri bottle_name s) = Raise OSError
  ∧ runs (events_of (forward_uri_to_wine uri bottle_name) s)
    = [(shell_invocation bottle uri, o0.1)]
  ∧ fs (snd (forward_uri_to_wine uri bottle_name s)) = o0.2.
Proof.
  intros bottle o0 Hm E0 Hwp Hw.
  destruct (forward_via_bottles_after_shell uri bottle s (fs s) wp E0 Hwp)
    as (res & f & evs & rest & Hrun & Hruns & Hraise & _).
  destruct (Hraise Hw) as (-> & -> & ->).
  unfold events_of. rewrite (forward_uri_to_wine_managed _ _ _ Hm).
  fold bottle. rewrite Hrun. simpl. by rewrite drop_app_length.
Qed.

(** X12: the batch method hands the URI over through the file system.
    When the shell bridge does not succeed and the two files can be
    written, the second call of the run is the batch call, and its outcome
    is the outcome of the program on a file system in which
    [drive_c/sv2_uri.txt] holds the URI unchanged and
    [drive_c/sv2_open_uri.bat] holds the batch script.  The files lie in
    the prefix that [get_wine_prefix] resolves from the environment. *)
Theorem managed_batch_call_sees_uri (uri : string)
    (bottle_name : option string) (s : state) (wp : Path) :
  let bottle :=
    default EmptyString (py_or bottle_name (environ !! "SV2_BOTTLE_NAME")) in
  let o0 := subprocess (shell_invocation bottle uri) (fs s) in
  let uri_path := wp </> "drive_c" </> "sv2_uri.txt" in
  let bat_path := wp </> "drive_c" </> "sv2_open_uri.bat" in
  let f1 := <[uri_path := File (Text uri)]> o0.2 in
  let f2 := <[bat_path := File (Text bat_content)]> f1 in
  managed (py_or bottle_name (environ !! "SV2_BOTTLE_NAME")) = true →
  passes shell_ok o0.1 = false →
  fst (get_wine_prefix (set_fs o0.2 s)) = Ok wp →
  writable o0.2 uri_path = true →
  writable f1 bat_path = true →
  runs (events_of (forward_uri_to_wine uri bottle_name) s) !! 1%nat
    = Some (cmd_invocation bottle, (subprocess (cmd_invocation bottle) f2).1)
  ∧ f2 !! uri_path = Some (File (Text uri))
  ∧ f2 !! bat_path = Some (File (Text bat_content)).
Proof.
  intros bottle o0 uri_path bat_path f1 f2 Hm E0 Hwp Hw1 Hw2.
  destruct (forward_via_bottles_after_shell uri bottle s (fs s) wp E0 Hwp)
    as (res & f & evs & rest & Hrun & Hruns & _ & Hbatch).
  destruct (Hbatch Hw1 Hw2) as (rest' & ->).
  split; [|split].
  - unfold events_of. rewrite (forward_uri_to_wine_managed _ _ _ Hm).
    fold bottle. rewrite Hrun. simpl. by rewrite drop_app_length, Hruns.
  - subst f2 f1. rewrite lookup_insert_ne; [apply lookup_insert_eq|].
    subst uri_path bat_path.
    change (?a </> "sv2_uri.txt") with (a ++ ["sv2_uri.txt"]).
    change (?a </> "sv2_open_uri.bat") with (a ++ ["sv2_open_uri.bat"]).
    intros Heq. by apply app_inv_head in Heq.
  - apply lookup_insert_eq.
Qed.

(** X13: in the Managed chain no failed attempt of one of the first three
    methods ends the run, be it a timeout, a program that could not be
    started, a non-zero exit code or a scanned signature: unless the
    function leaves with an exception, the next method is invoked. *)
Theorem managed_chain_advances (uri : string) (bottle_name : option string)
    (s : state) (k : nat) (m : method) (inv : invocation)
    (out : proc_outcome) (b : bool) :
  let bottle :=
    default EmptyString (py_or bottle_name (environ !! "SV2_BOTTLE_NAME")) in
  let rs := runs (events_of (forward_uri_to_wine uri bottle_name) s) in
  managed (py_or bottle_name (environ !! "SV2_BOTTLE_NAME")) = true →
  managed_chain !! k = Some m →
  (k < 3)%nat →
  rs !! k = Some (inv, out) →
  classify m out ≠ Success →
  fst (forward_uri_to_wine uri bottle_name s) = Ok b →
  ∃ m' inv' out',
    managed_chain !! S k = Some m'
    ∧ rs !! S k = Some (inv', out')
    ∧ is_call_of m' bottle uri inv'.
Proof.
  intros bottle rs Hm Hk Hlt Hrs Hfail Hret.
  assert (passes (method_ok m) out = false) as Hno.
  { destruct (passes _ _) eqn:E; [|done].
    by apply classify_success in E. }
  subst rs bottle. revert Hk Hrs Hret.
  unfold events_of, forward_uri_to_wine. rewrite Hm.
  destruct (forward_via_bottles_shapes uri
              (default EmptyString
                 (py_or bottle_name (environ !! "SV2_BOTTLE_NAME"))) s)
    as (out0 & out1 & out2 & out3 & exe & res & f & evs & -> & Hshape).
  simpl fst. simpl snd. simpl trace. rewrite drop_app_length.
  destruct Hshape as
    [(H0 & -> & ->)|[(H0 & -> & ->)|[(H0 & H1 & -> & ->)
    |[(H0 & H1 & H2 & -> & ->)|(H0 & H1 & H2 & -> & ->)]]]];
    destruct k as [|[|[|k]]]; try lia; simpl;
    intros [= <-] [= <- <-] Hret;
    unfold method_ok in Hno; try congruence; try done;
    eexists _, _, _; (split; [reflexivity|]);
    (split; [reflexivity|]); simpl; eauto.
Qed.

(** X14: [forward_uri_to_wine] returns [True] only after a success: when
    the result is [True], the last call of the run was classified
    [Success] under the test of its method. *)
Theorem chain_true_only_after_success (uri : string)
    (bottle_name : option string) (s : state) :
  fst (forward_uri_to_wine uri bottle_name s) = Ok true →
  ∃ k m inv out,
    chain_of bottle_name !! k = Some m
    ∧ runs (events_of (forward_uri_to_wine uri bottle_name) s) !! k
      = Some (inv, out)
    ∧ classify m out = Success
    ∧ length (runs (events_of (forward_uri_to_wine uri bottle_name) s)) = S k.
Proof.
  unfold chain_of, events_of, forward_uri_to_wine.
  destruct (managed _).
  - destruct (forward_via_bottles_shapes uri
                (default EmptyString
                   (py_or bottle_name (environ !! "SV2_BOTTLE_NAME"))) s)
      as (out0 & out1 & out2 & out3 & exe & res & f & evs & -> & Hshape).
    simpl. rewrite drop_app_length.
    destruct Hshape as
      [(H0 & -> & ->)|[(H0 & -> & ->)|[(H0 & H1 & -> & ->)
      |[(H0 & H1 & H2 & -> & ->)|(H0 & H1 & H2 & -> & ->)]]]];
      intros Htrue; try done.
    + exists 0%nat, ShellBridge. eexists _, _.
      repeat split; try reflexivity. by apply classify_success.
    + exists 1%nat, BatchIndirection. eexists _, _.
      repeat split; try reflexivity. by apply classify_success.
    + exists 2%nat, ProtocolDispatch. eexists _, _.
      repeat split; try reflexivity. by apply classify_success.
    + exists 3%nat, DirectExecutable. eexists _, _.
      repeat split; try reflexivity. apply classify_success.
      by injection Htrue.
  - destruct (forward_via_wine_shapes uri s)
      as (out0 & out1 & res & f & evs & -> & Hshape).
    simpl. rewrite drop_app_length.
    destruct out0 as [rc so se| |]; [destruct (rc =? 0)%Z eqn:Erc|..];
      destruct Hshape as [-> ->]; intros Htrue; try done.
    + exists 0%nat, WineStart. eexists _, _.
      repeat split; try reflexivity. apply classify_success. exact Erc.
    + exists 1%nat, WineProtocolDispatch. eexists _, _.
      repeat split; try reflexivity. apply classify_success.
      by injection Htrue.
Qed.

(** X15: the Managed chain returns [False] only when it is exhausted: all
    four methods have been invoked, each once, and none of the four
    attempts was classified [Success]. *)
Theorem managed_chain_false_is_exhaustion (uri : string)
    (bottle_name : option string) (s : state) :
  managed (py_or bottle_name (environ !! "SV2_BOTTLE_NAME")) = true →
  fst (forward_uri_to_wine uri bottle_name s) = Ok false →
  let rs := runs (events_of (forward_uri_to_wine uri bottle_name) s) in
  length rs = 4%nat
  ∧ ∀ k m inv out,
      managed_chain !! k = Some m → rs !! k = Some (inv, out) →
      classify m out ≠ Success.
Proof.
  intros Hm. unfold events_of, forward_uri_to_wine. rewrite Hm.
  destruct (forward_via_bottles_shapes uri
              (default EmptyString
                 (py_or bottle_name (environ !! "SV2_BOTTLE_NAME"))) s)
    as (out0 & out1 & out2 & out3 & exe & res & f & evs & -> & Hshape).
  simpl. rewrite drop_app_length.
  destruct Hshape as
    [(H0 & -> & ->)|[(H0 & -> & ->)|[(H0 & H1 & -> & ->)
    |[(H0 & H1 & H2 & -> & ->)|(H0 & H1 & H2 & -> & ->)]]]];
    intros Hfalse; try done.
  injection Hfalse as H3. split; [done|].
  intros k m inv out Hk Hrs Hok%classify_success. revert Hk Hrs.
  destruct k as [|[|[|[|k]]]]; simpl; intros [= <-] [= <- <-];
    unfold method_ok in Hok; congruence.
Qed.

(** X16: the calls of a run follow the chain.  Every run makes at least
    one external call and at most as many as the chain has methods, and
    the call at position [k] is the call of the method at position [k],
    made for the given URI (and bottle): no method is skipped, repeated or
    retried. *)
Theorem chain_calls_in_order (uri : string) (bottle_name : option string)
    (s : state) :
  let bottle :=
    default EmptyString (py_or bottle_name (environ !! "SV2_BOTTLE_NAME")) in
  let rs := runs (events_of (forward_uri_to_wine uri bottle_name) s) in
  (1 ≤ length rs ≤ length (chain_of bottle_name))%nat
  ∧ ∀ k inv out, rs !! k = Some (inv, out) →
      ∃ m, chain_of bottle_name !! k = Some m ∧ is_call_of m bottle uri inv.
Proof.
  intros bottle rs. split; [|by apply calls_follow_chain].
  subst rs. unfold chain_of, events_of, forward_uri_to_wine.
  destruct (managed _).
  - destruct (forward_via_bottles_shapes uri
                (default EmptyString
                   (py_or bottle_name (environ !! "SV2_BOTTLE_NAME"))) s)
      as (out0 & out1 & out2 & out3 & exe & res & f & evs & -> & Hshape).
    simpl. rewrite drop_app_length.
    destruct Hshape as
      [(H0 & -> & ->)|[(H0 & -> & ->)|[(H0 & H1 & -> & ->)
      |[(H0 & H1 & H2 & -> & ->)|(H0 & H1 & H2 & -> & ->)]]]];
      simpl; lia.
  - destruct (forward_via_wine_shapes uri s)
      as (out0 & out1 & res & f & evs & -> & Hshape).
    simpl. rewrite drop_app_length.
    destruct out0 as [rc so se| |]; [destruct (rc =? 0)%Z|..];
      destruct Hshape as [-> ->]; simpl; lia.
Qed.

End ChainMore.

Section ChainMoreScenarios.
Import Scenario MoreScenarios.

(** [managed_chain_raises_when_unwritable] on a prefix without [drive_c]. *)
Lemma managed_chain_raises_scenario :
  let s := start fresh fs_bare in
  fst (@forward_uri_to_wine scenario_B_host uri None s) = Raise OSError
  ∧ length (runs (events_of (@forward_uri_to_wine scenario_B_host uri None) s))
    = 1%nat.
Proof.
  intros s.
  destruct (@managed_chain_raises_when_unwritable scenario_B_host uri None s
              prefix) as (-> & -> & _);
    [vm_compute; reflexivity..|].
  split; reflexivity.
Defined.

(** [managed_batch_call_sees_uri] at Scenario B. *)
Lemma managed_batch_call_scenario :
  let s := start fresh fs_drive_c in
  runs (events_of (@forward_uri_to_wine scenario_B_host uri None) s) !! 1%nat
  = Some (cmd_invocation "sv2", ok_exit).
Proof.
  intros s.
  destruct (@managed_batch_call_sees_uri scenario_B_host uri None s prefix)
    as (-> & _ & _);
    [vm_compute; reflexivity..|].
  reflexivity.
Defined.

(** [managed_chain_advances] after a timeout of the shell bridge. *)
Lemma managed_chain_advances_scenario :
  let s := start fresh fs_drive_c in
  let rs := runs (events_of (@forward_uri_to_wine timeout_host uri None) s) in
  ∃ m' inv' out',
    managed_chain !! 1%nat = Some m'
    ∧ rs !! 1%nat = Some (inv', out')
    ∧ @is_call_of timeout_host m' "sv2" uri inv'.
Proof.
  intros s rs.
  apply (@managed_chain_advances timeout_host uri None s 0 ShellBridge
           (shell_invocation "sv2" uri) TimedOut true);
    try (vm_compute; reflexivity).
  - lia.
  - vm_compute. discriminate.
Defined.

(** [chain_true_only_after_success] at Scenario B. *)
Lemma chain_true_scenario :
  let s := start fresh fs_drive_c in
  ∃ k m inv out,
    @chain_of scenario_B_host None !! k = Some m
    ∧ runs (events_of (@forward_uri_to_wine scenario_B_host uri None) s) !! k
      = Some (inv, out)
    ∧ classify m out = Success
    ∧ length (runs (events_of (@forward_uri_to_wine scenario_B_host uri None)
                      s)) = S k.
Proof.
  intros s.
  apply (@chain_true_only_after_success scenario_B_host uri None s).
  vm_compute. reflexivity.
Defined.

(** [managed_chain_false_is_exhaustion] where every method fails. *)
Lemma managed_chain_exhausted_scenario :
  let s := start fresh fs_drive_c in
  let rs := runs (events_of (@forward_uri_to_wine failing_host uri None) s) in
  length rs = 4%nat
  ∧ ∀ k m inv out,
      managed_chain !! k = Some m → rs !! k = Some (inv, out) →
      classify m out ≠ Success.
Proof.
  intros s.
  apply (@managed_chain_false_is_exhaustion failing_host uri None s);
    vm_compute; reflexivity.
Defined.

End ChainMoreScenarios.

(** ** Further properties of the handlers *)

Lemma truthy_is_Some (x : option string) : truthy x = true → is_Some x.
Proof. destruct x; [by eexists|done]. Qed.

Section HandlersMore.
Context `{Host}.

(** X17: the injection endpoint never succeeds and never changes anything:
    without a stored token it answers with status 400, and with a stored
    token it raises [AttributeError], because the method it calls does not
    exist.  The state is the same afterwards in both cases. *)
Theorem inject_handler_never_succeeds (s : state) :
  (truthy (auth_token (self s)) = false
   ∧ auth_inject_handler s
     = (Ok (Response 400
              (JsonMessage "error" "No authentication token available")), s))
  ∨ (truthy (auth_token (self s)) = true
     ∧ auth_inject_handler s
       = (Raise (AttributeError "_inject_auth_token"), s)).
Proof.
  unfold auth_inject_handler, bind, get_self.
  destruct (truthy (auth_token (self s))); [right|left]; by split.
Qed.

(** X18: a callback with a direct access token fails with an exception,
    yet the session state keeps what it stored before failing: the status
    query afterwards reports [authenticated] with the user info of the
    request, and no authorization code. *)
Theorem token_callback_then_status (params : gmap string string)
    (s : state) :
  dict_has params "code" = false →
  truthy (py_or (params !! "access_token") (params !! "token")) = true →
  fst (auth_status_handler (snd (auth_callback_handler params s)))
  = Ok (Response 200
          (JsonStatus true false
             (Some (UserInfo
                (py_or_str (py_or (params !! "user_id") (params !! "uid"))
                           EmptyString)
                (py_or_str (py_or (params !! "username") (params !! "user"))
                           EmptyString)
                (py_or_str (params !! "email") EmptyString))))).
Proof.
  intros Hcode Htoken.
  assert (auth_callback_handler params s
          = (Raise (AttributeError "_inject_auth_token"),
             set_self
               (Server (port (self s))
                  (py_or (params !! "access_token") (params !! "token"))
                  (Some (UserInfo
                     (py_or_str (py_or (params !! "user_id") (params !! "uid"))
                                EmptyString)
                     (py_or_str
                        (py_or (params !! "username") (params !! "user"))
                        EmptyString)
                     (py_or_str (params !! "email") EmptyString)))
                  (Some params) (redirect_uri_used (self s))) s)) as ->.
  { unfold auth_callback_handler, bind at 1.
    unfold set_last_auth_params. by rewrite Hcode, Htoken. }
  unfold auth_status_handler, bind, get_self, ret, status_of, has_auth_code.
  simpl. rewrite Hcode, andb_false_r.
  rewrite bool_decide_eq_true_2 by (by apply truthy_is_Some). done.
Qed.

(** X19: [static_handler] serves two files and nothing else.  For any
    other file name (a path that climbs out of the directory included) it
    answers not-found without looking at the file system; what it serves
    is [static/style.css] or [static/script.js] of the module directory,
    and only if the file exists.  It changes no file. *)
Theorem static_handler_whitelist (module_dir : Path) (filename : string)
    (s : state) :
  (filename ∉ static_files →
   static_handler module_dir filename s = (Ok None, s))
  ∧ (∀ p, fst (static_handler module_dir filename s) = Ok (Some p) →
          filename ∈ static_files
          ∧ p = module_dir ++ ["static"; filename]
          ∧ fs_exists (fs s) p = true)
  ∧ fs (snd (static_handler module_dir filename s)) = fs s.
Proof.
  unfold static_handler.
  destruct (decide (filename ∈ static_files)) as [Hin|Hout].
  - rewrite bool_decide_eq_true_2 by done. simpl negb. cbv iota.
    unfold bind, path_exists, ret.
    assert (module_dir </> "static" </> filename
            = module_dir ++ ["static"; filename]) as ->.
    { unfold static_files in Hin.
      repeat (apply elem_of_cons in Hin as [->|Hin]);
        [..|by apply elem_of_nil in Hin];
        change (?a </> "static") with (a ++ ["static"]);
        change (?a </> "style.css") with (a ++ ["style.css"]);
        change (?a </> "script.js") with (a ++ ["script.js"]);
        by rewrite <- app_assoc. }
    split; [done|]. simpl.
    destruct (fs_exists (fs s) (module_dir ++ ["static"; filename])) eqn:E;
      simpl; (split; [|done]).
    + by intros p [= <-].
    + by intros p.
  - rewrite bool_decide_eq_false_2 by done. simpl.
    split; [done|]. split; [by intros p|done].
Qed.



End HandlersMore.

(** ** The registration of the protocol inside the prefix *)

Section ProtocolMore.
Context `{Host}.

Lemma mkdir_after p s f evs :
  mkdir p (after s f evs)
  = match mkdir_parents f p with
    | Some f' => (Ok (), after s f' (evs ++ [EvMkdir p]))
    | None => (Raise OSError, after s f evs)
    end.
Proof.
  unfold mkdir. rewrite fs_after. destruct (mkdir_parents f p); [|done].
  by rewrite set_fs_after, emit_after.
Qed.

Lemma protocol_wine_prefix_after bottle s f evs :
  ∃ w evs', protocol_wine_prefix bottle (after s f evs)
            = (Ok w, after s f (evs ++ evs')) ∧ runs evs' = [].
Proof.
  unfold protocol_wine_prefix. destruct (truthy bottle).
  - unfold bind.
    destruct (get_wine_prefix_after s f evs) as (wp & evs' & -> & Hr).
    by eexists _, evs'.
  - eexists _, []. by rewrite app_nil_r.
Qed.

(** Every run of [setup_wine_protocol_handler]: it returns a boolean, and
    what it has called tells the result. *)
Lemma setup_wine_protocol_handler_run bottle_name s :
  ∃ w b f evs,
    fst (protocol_wine_prefix
           (py_or bottle_name (environ !! "SV2_BOTTLE_NAME")) s) = Ok w
    ∧ setup_wine_protocol_handler bottle_name s = (Ok b, after s f evs)
    ∧ ((∀ p, fs_exists (fs s) p = true →
             ¬ is_executable_below (Path_of (fst w) </> "drive_c") p) →
       b = false ∧ f = fs s ∧ runs evs = [])
    ∧ (b = true →
       ∃ inv so se,
         runs evs = [(inv, Completed 0 so se)]
         ∧ (inv = bottles_regedit_invocation
                    (default EmptyString
                       (py_or bottle_name (environ !! "SV2_BOTTLE_NAME")))
            ∨ inv = wine_regedit_invocation (fst w)
                      (home </> ".sv2-bridge" </> "sv2_protocol.reg"))).
Proof.
  unfold setup_wine_protocol_handler.
  set (bottle := py_or bottle_name (environ !! "SV2_BOTTLE_NAME")).
  destruct (protocol_wine_prefix_after bottle s (fs s) [])
    as (w & evs0 & Hpw & Hevs0).
  rewrite <- after_start in Hpw. simpl app in Hpw.
  exists w. unfold bind at 1. rewrite Hpw. simpl fst at 1.
  unfold bind at 1.
  destruct (find_sv2_executable_after (fst w) s (fs s) evs0)
    as (exe & evs1 & Hfind & Hevs1).
  rewrite Hfind.
  assert (exe = None ↔
          ∀ p, fs_exists (fs s) p = true →
               ¬ is_executable_below (Path_of (fst w) </> "drive_c") p)
    as Hnone.
  { rewrite <- (find_sv2_executable_none (fst w) (after s (fs s) evs0)).
    rewrite Hfind. simpl. split; [by intros ->|by intros [= ->]]. }
  destruct exe as [exe|].
  2:{ exists false. eexists _, _. split; [done|]. split; [reflexivity|].
      split; [|done]. intros _. by rewrite runs_app, Hevs0, Hevs1. }
  assert (¬ ∀ p, fs_exists (fs s) p = true →
                 ¬ is_executable_below (Path_of (fst w) </> "drive_c") p)
    as Hsome by (intros Hn; by apply Hnone in Hn).
  unfold try_except. destruct (managed bottle).
  - unfold bind at 1. rewrite write_file_after.
    destruct (writable _ _).
    2:{ exists false. eexists _, _. split; [done|]. split; [reflexivity|].
        split; [done|done]. }
    unfold bind, subprocess_run, ret. rewrite fs_after.
    destruct (subprocess _ _) as [[rc so se| |] f2];
      rewrite set_fs_after, emit_after; cbn [returncode].
    + eexists _, _, _. split; [done|]. split; [reflexivity|].
      split; [done|]. intros Hrc%Z.eqb_eq. subst rc.
      eexists _, so, se. rewrite !runs_app, Hevs0, Hevs1.
      split; [reflexivity|by left].
    + exists false. eexists _, _. split; [done|]. split; [reflexivity|].
      split; [done|done].
    + exists false. eexists _, _. split; [done|]. split; [reflexivity|].
      split; [done|done].
  - unfold bind at 1. rewrite mkdir_after.
    destruct (mkdir_parents _ _).
    2:{ exists false. eexists _, _. split; [done|]. split; [reflexivity|].
        split; [done|done]. }
    unfold bind at 1. rewrite write_file_after.
    destruct (writable _ _).
    2:{ exists false. eexists _, _. split; [done|]. split; [reflexivity|].
        split; [done|done]. }
    unfold bind, subprocess_run, ret. rewrite fs_after.
    destruct (subprocess _ _) as [[rc so se| |] f2];
      rewrite set_fs_after, emit_after; cbn [returncode].
    + eexists _, _, _. split; [done|]. split; [reflexivity|].
      split; [done|]. intros Hrc%Z.eqb_eq. subst rc.
      eexists _, so, se. rewrite !runs_app, Hevs0, Hevs1.
      split; [reflexivity|by right].
    + exists false. eexists _, _. split; [done|]. split; [reflexivity|].
      split; [done|done].
    + exists false. eexists _, _. split; [done|]. split; [reflexivity|].
      split; [done|done].
Qed.

(** X21: without an executable there is nothing to register: when no
    entry named [synthv-studio.exe] exists below the [drive_c] of the
    prefix, [setup_wine_protocol_handler] returns [False], writes no
    registry script and calls no program. *)
Theorem protocol_handler_needs_executable (bottle_name : option string)
    (s : state) (w : string * Path) :
  fst (protocol_wine_prefix
         (py_or bottle_name (environ !! "SV2_BOTTLE_NAME")) s) = Ok w →
  (∀ p, fs_exists (fs s) p = true →
        ¬ is_executable_below (Path_of (fst w) </> "drive_c") p) →
  fst (setup_wine_protocol_handler bottle_name s) = Ok false
  ∧ fs (snd (setup_wine_protocol_handler bottle_name s)) = fs s
  ∧ runs (events_of (setup_wine_protocol_handler bottle_name) s) = [].
Proof.
  intros Hw Hnone.
  destruct (setup_wine_protocol_handler_run bottle_name s)
    as (w' & b & f & evs & Hw' & Hrun & Hmissing & _).
  rewrite Hw in Hw'. injection Hw' as <-.
  destruct (Hmissing Hnone) as (-> & -> & Hruns).
  unfold events_of. rewrite Hrun. simpl. by rewrite drop_app_length.
Qed.

(** X22: [setup_wine_protocol_handler] never raises, and it returns [True]
    only when the registry script was imported: the run then consists of
    exactly one external call, the [regedit] import (through the
    management tool, or through [wine regedit] on the script in
    [~/.sv2-bridge]), and that call exited with code zero. *)
Theorem protocol_handler_true_means_imported (bottle_name : option string)
    (s : state) :
  (∃ b, fst (setup_wine_protocol_handler bottle_name s) = Ok b)
  ∧ (fst (setup_wine_protocol_handler bottle_name s) = Ok true →
     ∃ inv so se,
       runs (events_of (setup_wine_protocol_handler bottle_name) s)
       = [(inv, Completed 0 so se)]
       ∧ (inv = bottles_regedit_invocation
                  (default EmptyString
                     (py_or bottle_name (environ !! "SV2_BOTTLE_NAME")))
          ∨ ∃ wine_prefix,
              inv = wine_regedit_invocation wine_prefix
                      (home </> ".sv2-bridge" </> "sv2_protocol.reg"))).
Proof.
  destruct (setup_wine_protocol_handler_run bottle_name s)
    as (w & b & f & evs & _ & Hrun & _ & Htrue).
  unfold events_of. rewrite Hrun. simpl. rewrite drop_app_length.
  split; [by exists b|]. intros [= ->].
  destruct (Htrue eq_refl) as (inv & so & se & Hruns & [->| ->]);
    eexists _, so, se; (split; [exact Hruns|]); [by left|right; by eexists].
Qed.

End ProtocolMore.

(** ** Scenarios for the handlers and the set-up functions *)

Section HandlersMoreScenarios.
Import Scenario MoreScenarios.
#[local] Existing Instance quiet_host.

(** [token_callback_then_status] at a request with a direct token. *)
Lemma token_callback_then_status_scenario :
  let s := start fresh fs_steamuser_cv in
  let params : gmap string string :=
    <[ "username" := "alice" ]> {[ "access_token" := "tok" ]} in
  fst (auth_status_handler (snd (auth_callback_handler params s)))
  = Ok (Response 200
          (JsonStatus true false
             (Some (UserInfo EmptyString "alice" EmptyString)))).
Proof.
  intros s params.
  rewrite (token_callback_then_status params s)
    by (vm_compute; reflexivity).
  vm_compute. reflexivity.
Defined.

(** [static_handler_whitelist] at a file name that climbs out of the
    directory. *)
Lemma static_handler_traversal_scenario :
  let s := start fresh fs_bare in
  static_handler ["opt"; "bridge"] "../server.py" s = (Ok None, s).
Proof.
  intros s.
  apply (static_handler_whitelist ["opt"; "bridge"] "../server.py" s).
  unfold static_files. intros Hin.
  repeat (apply elem_of_cons in Hin as [Hin|Hin]; [discriminate Hin|]).
  by apply elem_of_nil in Hin.
Defined.

(** [protocol_handler_needs_executable] in a prefix with nothing
    installed. *)
Lemma protocol_handler_bare_scenario :
  let s := start fresh fs_drive_c in
  fst (setup_wine_protocol_handler None s) = Ok false
  ∧ fs (snd (setup_wine_protocol_handler None s)) = fs s
  ∧ runs (events_of (setup_wine_protocol_handler None) s) = [].
Proof.
  intros s.
  apply (protocol_handler_needs_executable None s
           ("/home/alice/.wine-sv2", prefix)).
  - vm_compute. reflexivity.
  - apply (find_sv2_executable_none "/home/alice/.wine-sv2" s).
    vm_compute. reflexivity.
Defined.

(** [protocol_handler_true_means_imported] with the executable installed
    and a [regedit] that exits with status 0. *)
Lemma protocol_handler_imported_scenario :
  let s := start fresh fs_installed in
  ∃ inv so se,
    runs (events_of (setup_wine_protocol_handler None) s)
    = [(inv, Completed 0 so se)]
    ∧ (inv = bottles_regedit_invocation
               (default EmptyString
                  (py_or None (environ !! "SV2_BOTTLE_NAME")))
       ∨ ∃ wine_prefix,
           inv = wine_regedit_invocation wine_prefix
                   (home </> ".sv2-bridge" </> "sv2_protocol.reg")).
Proof.
  intros s.
  apply (proj2 (protocol_handler_true_means_imported None s)).
  vm_compute. reflexivity.
Defined.

End HandlersMoreScenarios.

Section SetupScenarios.
Import Scenario MoreScenarios.
#[local] Existing Instance no_programs_host.


End SetupScenarios.
